(** * The metadata extraction route ([src/app/api/metadata/route.ts])

    A shallow embedding of the [POST] handler: URL validation, the fetch,
    the sweep over the parsed document that fills [additionalMeta], the
    resolution of favicon and feed links, and the object literal that
    combines the scraper's fields with the collected tags.

    What the handler obtains from its runtime (the [URL] constructor,
    [fetch], the [metascraper] instance, [cheerio.load]) is gathered in the
    class [Platform]; every statement holds for an arbitrary platform, and
    the examples run on the reference platform of module [Ref]. *)

From Stdlib Require Import String Ascii List Bool Arith Lia.
From Stdlib Require Import Numbers.DecimalString Numbers.DecimalNat.
Import ListNotations.
Open Scope string_scope.
Open Scope list_scope.

(** ** JavaScript values and objects *)

(** The values that reach the result object: a scraper field may be
    [undefined] or [null]; collected tags are strings; [feeds] is an array of
    strings. *)
Inductive jsval : Type :=
| JUndefined
| JNull
| JString (s : string)
| JStrings (l : list string).

(** A plain object: its own properties with their values.  A property is
    stored once; writing to an existing key replaces the value where it
    stands, writing to a new key appends it.  This is the order in which the
    engine enumerates keys that are not array indices; no statement below
    depends on the place of a key. *)
Definition obj := list (string * jsval).

Fixpoint obj_get (k : string) (o : obj) : option jsval :=
  match o with
  | [] => None
  | (k', v) :: o' => if String.eqb k k' then Some v else obj_get k o'
  end.

Fixpoint obj_set (k : string) (v : jsval) (o : obj) : obj :=
  match o with
  | [] => [(k, v)]
  | (k', v') :: o' =>
      if String.eqb k k' then (k', v) :: o' else (k', v') :: obj_set k v o'
  end.

Definition obj_keys (o : obj) : list string := map fst o.

(** [{ ...target, ...source }]: every property of [source], in its order, is
    written to [target]. *)
Definition obj_spread (source target : obj) : obj :=
  fold_left (fun acc kv => obj_set (fst kv) (snd kv) acc) source target.

(** ** JSON bodies *)

Inductive json : Type :=
| JsonNull
| JsonString (s : string)
| JsonArray (l : list string).

(** [JSON.stringify] on an object: a property whose value is [undefined] is
    left out, [null] is written as [null]. *)
Fixpoint to_json (o : obj) : list (string * json) :=
  match o with
  | [] => []
  | (k, JUndefined) :: o' => to_json o'
  | (k, JNull) :: o' => (k, JsonNull) :: to_json o'
  | (k, JString s) :: o' => (k, JsonString s) :: to_json o'
  | (k, JStrings l) :: o' => (k, JsonArray l) :: to_json o'
  end.

(** The JSON form of a value; [undefined] has none. *)
Definition json_of (v : jsval) : option json :=
  match v with
  | JUndefined => None
  | JNull => Some JsonNull
  | JString s => Some (JsonString s)
  | JStrings l => Some (JsonArray l)
  end.

Fixpoint json_get (k : string) (o : list (string * json)) : option json :=
  match o with
  | [] => None
  | (k', v) :: o' => if String.eqb k k' then Some v else json_get k o'
  end.

(** ** The parsed document *)

(** An element as the selectors and [.attr] see it: its tag name and its
    attributes.  A document is the sequence of its elements in document
    order; none of the selectors of the route has a combinator, so the
    nesting of elements plays no role. *)
Record element : Type := Element {
  tag : string;
  attrs : list (string * string)
}.

Definition document := list element.

(** [$(element).attr(name)]: the attribute's value, or [undefined]. *)
Fixpoint assoc (name : string) (l : list (string * string)) : option string :=
  match l with
  | [] => None
  | (n, v) :: l' => if String.eqb name n then Some v else assoc name l'
  end.

Definition attr (name : string) (e : element) : option string :=
  assoc name (attrs e).

(** ASCII lower case. *)
Definition lower_char (c : ascii) : ascii :=
  if ((65 <=? nat_of_ascii c) && (nat_of_ascii c <=? 90))%nat
  then ascii_of_nat (nat_of_ascii c + 32) else c.

Fixpoint to_lower (s : string) : string :=
  match s with
  | EmptyString => EmptyString
  | String c s' => String (lower_char c) (to_lower s')
  end.

(** The attributes whose values the selector engine compares without regard
    to case in an HTML document; [rel], [type] and [http-equiv] are the ones
    the route selects on. *)
Definition case_insensitive_attributes : list string :=
  ["accept"; "accept-charset"; "align"; "alink"; "axis"; "bgcolor";
   "charset"; "checked"; "clear"; "codetype"; "color"; "compact"; "declare";
   "defer"; "dir"; "direction"; "disabled"; "enctype"; "face"; "frame";
   "hreflang"; "http-equiv"; "lang"; "language"; "link"; "media"; "method";
   "multiple"; "nohref"; "noresize"; "noshade"; "nowrap"; "readonly"; "rel";
   "rev"; "rules"; "scope"; "scrolling"; "selected"; "shape"; "target";
   "text"; "type"; "valign"; "valuetype"; "vlink"].

(** Two attribute values that differ by the case of their letters only.  The
    engine lower-cases both sides; on the values the route selects on, which
    have no letter that a character outside ASCII lower-cases to, this is the
    comparison of the ASCII lower-cased strings. *)
Definition same_ignoring_case (w v : string) : bool :=
  String.eqb (to_lower w) (to_lower v).

(** The attribute tests of the selectors in use: [[a]], [[a="v"]] and
    [[a^="v"]].  The value of [[a="v"]] is compared without regard to case
    when [a] is one of [case_insensitive_attributes], and as written
    otherwise; [[a^="v"]] is used on [name] and [property] only, which are
    compared as written. *)
Inductive attr_test : Type :=
| Has (a : string)
| Equals (a v : string)
| StartsWith (a v : string).

(** A compound selector [tag], [tag[test]]; a selector is a comma-separated
    group of them. *)
Record compound : Type := Compound {
  sel_tag : string;
  sel_test : option attr_test
}.

Definition selector := list compound.

Definition test_holds (t : attr_test) (e : element) : bool :=
  match t with
  | Has a => match attr a e with Some _ => true | None => false end
  | Equals a v =>
      match attr a e with
      | Some w =>
          if existsb (String.eqb a) case_insensitive_attributes
          then same_ignoring_case w v
          else String.eqb w v
      | None => false
      end
  | StartsWith a v =>
      match attr a e with
      | Some w => negb (String.eqb v "") && prefix v w
      | None => false
      end
  end.

Definition matches (c : compound) (e : element) : bool :=
  String.eqb (tag e) (sel_tag c) &&
  match sel_test c with
  | None => true
  | Some t => test_holds t e
  end.

(** [$(selector)]: the matching elements, in document order, each once. *)
Definition select (s : selector) (d : document) : list element :=
  filter (fun e => existsb (fun c => matches c e) s) d.

(** [$(selector).attr(name)]: the attribute of the first element of the
    selection. *)
Definition first_attr (s : selector) (name : string) (d : document)
  : option string :=
  match select s d with
  | [] => None
  | e :: _ => attr name e
  end.

Definition tag_sel (t : string) : selector := [Compound t None].
Definition tag_attr (t : string) (test : attr_test) : selector :=
  [Compound t (Some test)].

(** ** Truthiness *)

(** [if (s)] for a value that is a string or [undefined]. *)
Definition truthy (s : option string) : bool :=
  match s with
  | Some s' => negb (String.eqb s' "")
  | None => false
  end.

(** [a || b] *)
Definition js_or (a b : option string) : option string :=
  if truthy a then a else b.

(** ** The runtime of the route *)

(** A parsed URL, by the properties of the [URL] object the statements
    mention.  [hostname] is the empty string when the URL has no host. *)
Record URL : Type := {
  href : string;
  protocol : string;
  hostname : string
}.

(** The [Response] of a completed fetch: [url] is the address after
    redirects, [text] the body. *)
Record Response : Type := {
  status : nat;
  statusText : string;
  url : string;
  text : string
}.

(** [response.ok]: the status is in the range 200 to 299. *)
Definition ok (r : Response) : bool :=
  ((200 <=? status r) && (status r <=? 299))%nat.

(** The seven fields the route reads from the scraper's answer. *)
Record Metadata : Type := {
  title : jsval;
  description : jsval;
  image : jsval;
  logo : jsval;
  author : jsval;
  date : jsval;
  publisher : jsval
}.

(** What the route calls and does not define.  [None] stands for a thrown
    exception or a rejected promise.
    - [new_URL input base] is [new URL(input)] or [new URL(input, base)];
    - [fetch u] is the one GET, with redirects followed;
    - [scraper html u] is the configured [metascraper] instance;
    - [cheerio_load html] is the parsed document. *)
Class Platform : Type := {
  new_URL : string -> option string -> option URL;
  fetch : string -> option Response;
  scraper : string -> string -> option Metadata;
  cheerio_load : string -> document
}.

(** The body of the request as [request.json()] and the destructuring
    [const { url } = ...] see it: not JSON at all ([json()] rejects), or an
    object whose [url] member is missing or is a string. *)
Inductive NextRequest : Type :=
| BadBody
| JsonBody (url_member : option string).

Record NextResponse : Type := {
  res_status : nat;
  res_body : list (string * json)
}.

(** [NextResponse.json(body, { status })] *)
Definition NextResponse_json (body : obj) (st : nat) : NextResponse :=
  {| res_status := st; res_body := to_json body |}.

Definition error_response (message : string) (st : nat) : NextResponse :=
  NextResponse_json [("error", JString message)] st.

(** The number in a template literal. *)
Definition decimal (n : nat) : string :=
  NilEmpty.string_of_uint (Nat.to_uint n).

(** The names under which the scraper's fields enter the result. *)
Definition rule_fields : list string :=
  ["title"; "description"; "image"; "logo"; "author"; "date"; "publisher"].

Definition field (m : Metadata) (k : string) : jsval :=
  if String.eqb k "title" then title m
  else if String.eqb k "description" then description m
  else if String.eqb k "image" then image m
  else if String.eqb k "logo" then logo m
  else if String.eqb k "author" then author m
  else if String.eqb k "date" then date m
  else if String.eqb k "publisher" then publisher m
  else JUndefined.

(** ** The route *)

Section Route.

Context {P : Platform}.

(** [isValidUrl]: the constructor does not throw. *)
Definition isValidUrl (s : string) : bool :=
  match new_URL s None with
  | Some _ => true
  | None => false
  end.

(** [additionalMeta[k] = content] for a string [content]: a write to the key
    [__proto__] goes to the setter that a plain object inherits, which
    ignores a value that is not an object, so nothing is stored; any other key
    becomes a property of the object. *)
Definition assign (k content : string) (additionalMeta : obj) : obj :=
  if String.eqb k "__proto__" then additionalMeta
  else obj_set k (JString content) additionalMeta.

(** The body of the three [.each] callbacks that record a meta tag: [key] is
    ["property"] in the first sweep and ["name"] in the other two. *)
Definition record_meta (key : string) (additionalMeta : obj) (e : element)
  : obj :=
  match attr key e, attr "content" e with
  | Some k, Some content =>
      if truthy (Some k) && truthy (Some content)
      then assign k content additionalMeta
      else additionalMeta
  | _, _ => additionalMeta
  end.

Definition og_tags : selector := tag_attr "meta" (StartsWith "property" "og:").
Definition twitter_tags : selector :=
  tag_attr "meta" (StartsWith "name" "twitter:").
Definition named_tags : selector := tag_attr "meta" (Has "name").

(** The three sweeps: Open Graph tags, Twitter Card tags, then every meta tag
    that has a name. *)
Definition collect_meta (d : document) : obj :=
  let m1 := fold_left (record_meta "property") (select og_tags d) [] in
  let m2 := fold_left (record_meta "name") (select twitter_tags d) m1 in
  fold_left (record_meta "name") (select named_tags d) m2.

(** [h.startsWith("http") ? h : new URL(h, targetUrl).href] *)
Definition absolute (h targetUrl : string) : option string :=
  if prefix "http" h then Some h
  else match new_URL h (Some targetUrl) with
       | Some u => Some (href u)
       | None => None
       end.

Definition link_rel (rel : string) : selector :=
  tag_attr "link" (Equals "rel" rel).

(** The [favicon] constant: the first truthy of the three lookups. *)
Definition favicon_href (d : document) : option string :=
  js_or (js_or (first_attr (link_rel "icon") "href" d)
               (first_attr (link_rel "shortcut icon") "href" d))
        (first_attr (link_rel "apple-touch-icon") "href" d).

(** The [lang] constant. *)
Definition lang_of (d : document) : option string :=
  js_or (first_attr (tag_sel "html") "lang" d)
        (first_attr (tag_attr "meta" (Equals "http-equiv" "content-language"))
                    "content" d).

Definition feed_links : selector :=
  [Compound "link" (Some (Equals "type" "application/rss+xml"));
   Compound "link" (Some (Equals "type" "application/atom+xml"))].

(** The [.each] over the feed links: every truthy [href] is made absolute
    and pushed; a throwing [new URL] ends the loop. *)
Fixpoint push_feeds (els : list element) (targetUrl : string)
  (feeds : list string) : option (list string) :=
  match els with
  | [] => Some feeds
  | e :: els' =>
      match attr "href" e with
      | Some h =>
          if truthy (Some h) then
            match absolute h targetUrl with
            | Some a => push_feeds els' targetUrl (feeds ++ [a])
            | None => None
            end
          else push_feeds els' targetUrl feeds
      | None => push_feeds els' targetUrl feeds
      end
  end.

(** [if (canonical) additionalMeta.canonical = canonical] *)
Definition with_canonical (d : document) (m : obj) : obj :=
  match first_attr (link_rel "canonical") "href" d with
  | Some canonical =>
      if truthy (Some canonical) then obj_set "canonical" (JString canonical) m
      else m
  | None => m
  end.

(** [if (favicon) additionalMeta.favicon = ...]; [None] when [new URL]
    throws. *)
Definition with_favicon (d : document) (targetUrl : string) (m : obj)
  : option obj :=
  match favicon_href d with
  | Some favicon =>
      if truthy (Some favicon) then
        match absolute favicon targetUrl with
        | Some a => Some (obj_set "favicon" (JString a) m)
        | None => None
        end
      else Some m
  | None => Some m
  end.

(** [if (lang) additionalMeta.language = lang] *)
Definition with_language (d : document) (m : obj) : obj :=
  match lang_of d with
  | Some lang =>
      if truthy (Some lang) then obj_set "language" (JString lang) m else m
  | None => m
  end.

(** The loop over the feed links and
    [if (feeds.length > 0) additionalMeta.feeds = feeds]. *)
Definition with_feeds (d : document) (targetUrl : string) (m : obj)
  : option obj :=
  match push_feeds (select feed_links d) targetUrl [] with
  | None => None
  | Some feeds =>
      Some (if (0 <? List.length feeds)%nat
            then obj_set "feeds" (JStrings feeds) m
            else m)
  end.

(** [additionalMeta] as it stands before the result is built: the sweeps of
    the meta tags, then canonical, favicon, language and feeds in the order
    of the source; [None] when one of the [new URL(..., targetUrl)] calls
    throws. *)
Definition additionalMeta (d : document) (targetUrl : string) : option obj :=
  match with_favicon d targetUrl (with_canonical d (collect_meta d)) with
  | None => None
  | Some m => with_feeds d targetUrl (with_language d m)
  end.

(** The object literal [result]: the final URL and the scraper's fields,
    then the spread of [additionalMeta], then [extractedAt]. *)
Definition result (targetUrl : string) (metadata : Metadata)
  (additional : obj) (now : string) : obj :=
  obj_set "extractedAt" (JString now)
    (obj_spread additional
       [("url", JString targetUrl);
        ("title", title metadata);
        ("description", description metadata);
        ("image", image metadata);
        ("logo", logo metadata);
        ("author", author metadata);
        ("date", date metadata);
        ("publisher", publisher metadata)]).

(** Lines 69 to 157: scraper, parse, sweep, combination.  [now] is the
    reading of the clock in [new Date().toISOString()]. *)
Definition extraction (html targetUrl now : string) : option obj :=
  match scraper html targetUrl with
  | None => None
  | Some metadata =>
      match additionalMeta (cheerio_load html) targetUrl with
      | None => None
      | Some additional => Some (result targetUrl metadata additional now)
      end
  end.

(** The answer of the [catch] block. *)
Definition internal_error : NextResponse :=
  error_response "Failed to extract metadata" 500.

(** [POST]: the response, and the addresses [fetch] was called with. *)
Definition POST (request : NextRequest) (now : string)
  : NextResponse * list string :=
  match request with
  | BadBody => (internal_error, [])
  | JsonBody member =>
      match member with
      | None => (error_response "URL is required" 400, [])
      | Some u =>
          if negb (truthy (Some u)) then
            (error_response "URL is required" 400, [])
          else if negb (isValidUrl u) then
            (error_response "Invalid URL format" 400, [])
          else
            match fetch u with
            | None => (internal_error, [u])
            | Some response =>
                if negb (ok response) then
                  (error_response
                     ("Failed to fetch webpage: " ++ decimal (status response)
                        ++ " " ++ statusText response) 400, [u])
                else
                  match extraction (text response) (url response) now with
                  | None => (internal_error, [u])
                  | Some r => (NextResponse_json r 200, [u])
                  end
            end
      end
  end.

End Route.

(** ** Reading the document the way the specification words it *)

(** The [href] of the first element matched by [link[rel="..."]], when it is
    a non-empty string. *)
Definition icon_href (rel : string) (d : document) : option string :=
  match find (fun e => String.eqb (tag e) "link" &&
                       match attr "rel" e with
                       | Some r => same_ignoring_case r rel
                       | None => false
                       end) d with
  | Some e =>
      match attr "href" e with
      | Some h => if String.eqb h "" then None else Some h
      | None => None
      end
  | None => None
  end.

(** The first of a list of candidates that is present. *)
Fixpoint first_present (l : list (option string)) : option string :=
  match l with
  | [] => None
  | Some h :: _ => Some h
  | None :: l' => first_present l'
  end.

(** The favicon candidate by priority: [icon], then [shortcut icon], then
    [apple-touch-icon]. *)
Definition favicon_by_priority (d : document) : option string :=
  first_present
    (map (fun rel => icon_href rel d)
         ["icon"; "shortcut icon"; "apple-touch-icon"]).

Definition is_feed_link (e : element) : bool :=
  String.eqb (tag e) "link" &&
  match attr "type" e with
  | Some t => same_ignoring_case t "application/rss+xml" ||
              same_ignoring_case t "application/atom+xml"
  | None => false
  end.

(** The non-empty [href]s of the feed links, in document order. *)
Fixpoint feed_hrefs (d : document) : list string :=
  match d with
  | [] => []
  | e :: d' =>
      if is_feed_link e then
        match attr "href" e with
        | Some h => if String.eqb h "" then feed_hrefs d' else h :: feed_hrefs d'
        | None => feed_hrefs d'
        end
      else feed_hrefs d'
  end.

(** A key under which a meta tag can be recorded: not empty, and not
    [__proto__], which a plain object does not store. *)
Definition recordable (k : string) : bool :=
  negb (String.eqb k "") && negb (String.eqb k "__proto__").

(** The [content] of a meta element that carries the key [k] in the
    attribute [key], when the key is recordable and the content is not empty:
    what one occurrence of the key contributes. *)
Definition occurrence (key k : string) (e : element) : option string :=
  if String.eqb (tag e) "meta" then
    match attr key e, attr "content" e with
    | Some k', Some c =>
        if String.eqb k' k && recordable k && negb (String.eqb c "")
        then Some c else None
    | _, _ => None
    end
  else None.

(** The contribution of the last element of a list that contributes. *)
Fixpoint last_some {A B : Type} (g : A -> option B) (l : list A) : option B :=
  match l with
  | [] => None
  | x :: l' =>
      match last_some g l' with
      | Some b => Some b
      | None => g x
      end
  end.

(** The contribution of the last occurrence of [k] in document order. *)
Definition last_occurrence (key k : string) (d : document) : option string :=
  last_some (occurrence key k) d.

(** The contribution of the last meta element of the document that carries
    the key [k], be it as [name] or as [property]. *)
Definition last_in_document (k : string) (d : document) : option string :=
  last_some (fun e => match occurrence "name" k e with
                      | Some c => Some c
                      | None => occurrence "property" k e
                      end) d.

(** The link candidates of a document: the favicon candidate and the feed
    links. *)
Definition candidates (d : document) : list string :=
  match favicon_by_priority d with
  | Some h => h :: feed_hrefs d
  | None => feed_hrefs d
  end.

(** The number a decimal numeral denotes: digits only, at least one, and no
    zero in front of another digit. *)
Definition number_of (s : string) : option nat :=
  match s with
  | EmptyString => None
  | String c rest =>
      if Ascii.eqb c "0" && negb (String.eqb rest "") then None
      else option_map Nat.of_uint (NilEmpty.uint_of_string s)
  end.

(** The keys the route writes after the sweeps of the meta tags. *)
Definition link_keys : list string :=
  ["canonical"; "favicon"; "language"; "feeds"].

(** A string is an absolute URL when the constructor accepts it without a
    base. *)
Definition is_absolute {P : Platform} (s : string) : bool :=
  match new_URL s None with
  | Some _ => true
  | None => false
  end.

(** ** Auxiliary readings used in the proofs *)

(** What one callback run contributes to the key [k]. *)
Definition recorded (key k : string) (e : element) : option string :=
  match attr key e, attr "content" e with
  | Some k', Some c =>
      if String.eqb k' k && recordable k && negb (String.eqb c "")
      then Some c else None
  | _, _ => None
  end.

Definition last_recorded (key k : string) (els : list element)
  : option string :=
  last_some (recorded key k) els.

Section Readings.

Context {P : Platform}.

(** Every [href] of a list made absolute, unless one of them throws. *)
Fixpoint all_absolute (t : string) (hs : list string) : option (list string) :=
  match hs with
  | [] => Some []
  | h :: hs' =>
      match absolute h t with
      | None => None
      | Some a =>
          match all_absolute t hs' with
          | None => None
          | Some l => Some (a :: l)
          end
      end
  end.



End Readings.

Definition is_link_rel (rel : string) (e : element) : bool :=
  String.eqb (tag e) "link" &&
  match attr "rel" e with
  | Some r => same_ignoring_case r rel
  | None => false
  end.

(** The keys the object literal of the result writes itself. *)
Definition literal_keys : list string :=
  ["url"; "title"; "description"; "image"; "logo"; "author"; "date";
   "publisher"; "extractedAt"].

(** ** A reference platform for the examples *)

Module Ref.

(** The URL parser of the examples.  It follows the URL Standard on the
    inputs the examples use: printable ASCII without surrounding spaces,
    credentials, ports, backslashes, percent escapes or dot segments, and
    with a host that is a domain name (not an IP literal, and not a name whose
    last label is a number). *)

Definition between (lo hi : nat) (c : ascii) : bool :=
  ((lo <=? nat_of_ascii c) && (nat_of_ascii c <=? hi))%nat.

Definition is_alpha (c : ascii) : bool := between 65 90 c || between 97 122 c.

Definition is_scheme_char (c : ascii) : bool :=
  is_alpha c || between 48 57 c ||
  Ascii.eqb c "+" || Ascii.eqb c "-" || Ascii.eqb c ".".

Definition lower (c : ascii) : ascii :=
  if between 65 90 c then ascii_of_nat (nat_of_ascii c + 32) else c.

Fixpoint lower_string (s : string) : string :=
  match s with
  | EmptyString => EmptyString
  | String c s' => String (lower c) (lower_string s')
  end.

(** The scheme and what follows its colon. *)
Fixpoint scan_scheme (s acc : string) : option (string * string) :=
  match s with
  | EmptyString => None
  | String c s' =>
      if Ascii.eqb c ":" then Some (acc, s')
      else if is_scheme_char c
           then scan_scheme s' (acc ++ String (lower c) EmptyString)
           else None
  end.

Definition split_scheme (s : string) : option (string * string) :=
  match s with
  | String c _ => if is_alpha c then scan_scheme s "" else None
  | EmptyString => None
  end.

Definition special (scheme : string) : bool :=
  existsb (String.eqb scheme) ["http"; "https"; "ftp"; "ws"; "wss"].

Fixpoint skip_slashes (s : string) : string :=
  match s with
  | String "/" s' => skip_slashes s'
  | _ => s
  end.

Definition ends_host (c : ascii) : bool :=
  Ascii.eqb c "/" || Ascii.eqb c "?" || Ascii.eqb c "#".

(** The host and the rest. *)
Fixpoint span_host (s : string) : string * string :=
  match s with
  | EmptyString => ("", "")
  | String c s' =>
      if ends_host c then ("", s)
      else let (h, r) := span_host s' in (String c h, r)
  end.

Definition forbidden_host_char (c : ascii) : bool :=
  existsb (Ascii.eqb c) [" "; "<"; ">"; "["; "]"; "^"; "|"; "%"]%char.

Fixpoint has_forbidden (s : string) : bool :=
  match s with
  | EmptyString => false
  | String c s' => forbidden_host_char c || has_forbidden s'
  end.

Definition rooted (path : string) : string :=
  match path with
  | String "/" _ => path
  | _ => "/" ++ path
  end.

(** The parts of a parsed URL: scheme, host ([None] for an opaque path), path
    with query and fragment. *)
Definition parts : Type := string * option string * string.

Definition parse (s : string) : option parts :=
  match split_scheme s with
  | None => None
  | Some (scheme, rest) =>
      if special scheme then
        let (host, path) := span_host (skip_slashes rest) in
        if String.eqb host "" || has_forbidden host then None
        else Some (scheme, Some (lower_string host), rooted path)
      else
        match rest with
        | String "/" (String "/" rest') =>
            let (host, path) := span_host rest' in
            if has_forbidden host then None
            else Some (scheme, Some host, path)
        | _ => Some (scheme, None, rest)
        end
  end.

Definition serialize (p : parts) : URL :=
  match p with
  | (scheme, Some host, path) =>
      {| href := scheme ++ "://" ++ host ++ path;
         protocol := scheme ++ ":";
         hostname := host |}
  | (scheme, None, path) =>
      {| href := scheme ++ ":" ++ path;
         protocol := scheme ++ ":";
         hostname := "" |}
  end.

(** The path up to and including its last slash, query and fragment cut
    off. *)
Fixpoint directory (path : string) : string :=
  match path with
  | EmptyString => ""
  | String c path' =>
      if Ascii.eqb c "?" || Ascii.eqb c "#" then ""
      else
        let rest := directory path' in
        if Ascii.eqb c "/" then String c rest
        else if String.eqb rest "" then "" else String c rest
  end.

Fixpoint no_fragment (path : string) : string :=
  match path with
  | EmptyString => ""
  | String c path' => if Ascii.eqb c "#" then "" else String c (no_fragment path')
  end.

Fixpoint no_query (path : string) : string :=
  match path with
  | EmptyString => ""
  | String c path' =>
      if Ascii.eqb c "?" || Ascii.eqb c "#" then ""
      else String c (no_query path')
  end.

Definition URL_constructor (input : string) (base : option string)
  : option URL :=
  match split_scheme input, base with
  | Some _, _ => option_map serialize (parse input)
  | None, None => None
  | None, Some b =>
      match parse b with
      | Some (scheme, Some host, path) =>
          match input with
          | String "/" (String "/" _) =>
              option_map serialize (parse (scheme ++ ":" ++ input))
          | String "/" _ => Some (serialize (scheme, Some host, input))
          | String "?" _ =>
              Some (serialize (scheme, Some host, (no_query path ++ input)%string))
          | String "#" _ =>
              Some (serialize (scheme, Some host,
                               (no_fragment path ++ input)%string))
          | EmptyString => Some (serialize (scheme, Some host, no_fragment path))
          | _ =>
              Some (serialize (scheme, Some host, (directory path ++ input)%string))
          end
      | _ => None
      end
  end.

(** The pages of the examples: the address, the response, the parse tree
    of the body and what the scraper reports for it (a field it does not
    find is [null]). *)
Record page : Type := {
  address : string;
  response : Response;
  tree : document;
  scraped : Metadata
}.

Definition nothing_found : Metadata :=
  {| title := JNull; description := JNull; image := JNull; logo := JNull;
     author := JNull; date := JNull; publisher := JNull |}.

Definition meta_name (n c : string) : element :=
  Element "meta" [("name", n); ("content", c)].
Definition meta_property (p c : string) : element :=
  Element "meta" [("property", p); ("content", c)].
Definition link (a v h : string) : element :=
  Element "link" [(a, v); ("href", h)].

Definition page_html : string :=
  "<html lang='en'><head><title>B</title>"
  ++ "<meta name='url' content='elsewhere'>"
  ++ "<meta name='extractedAt' content='yesterday'>"
  ++ "<link rel='icon' href='/favicon.ico'>"
  ++ "<link type='application/rss+xml' href='/a.xml'>"
  ++ "<link type='application/atom+xml' href='/b.xml'>"
  ++ "</head><body></body></html>".

Definition page_tree : document :=
  [Element "html" [("lang", "en")]; Element "head" []; Element "title" [];
   meta_name "url" "elsewhere";
   meta_name "extractedAt" "yesterday";
   link "rel" "icon" "/favicon.ico";
   link "type" "application/rss+xml" "/a.xml";
   link "type" "application/atom+xml" "/b.xml";
   Element "body" []].

Definition broken_html : string :=
  "<html><head><link rel='icon' href='//'></head><body></body></html>".

Definition broken_tree : document :=
  [Element "html" []; Element "head" []; link "rel" "icon" "//";
   Element "body" []].

Definition empty_html : string := "<html><head></head><body></body></html>".

Definition empty_tree : document :=
  [Element "html" []; Element "head" []; Element "body" []].

Definition pages : list page :=
  [ {| address := "https://example.com/page";
       response := {| status := 200; statusText := "OK";
                      url := "https://example.com/page"; text := page_html |};
       tree := page_tree;
       scraped := {| title := JString "B"; description := JNull;
                     image := JNull; logo := JNull; author := JNull;
                     date := JNull; publisher := JNull |} |};
    {| address := "https://example.com/broken";
       response := {| status := 200; statusText := "OK";
                      url := "https://example.com/broken";
                      text := broken_html |};
       tree := broken_tree;
       scraped := nothing_found |};
    {| address := "https://example.com/empty";
       response := {| status := 200; statusText := "OK";
                      url := "https://example.com/empty"; text := empty_html |};
       tree := empty_tree;
       scraped := nothing_found |};
    {| address := "https://example.com/missing";
       response := {| status := 404; statusText := "Not Found";
                      url := "https://example.com/missing"; text := "" |};
       tree := empty_tree;
       scraped := nothing_found |} ].

(** An address outside the table is not reachable: the fetch rejects. *)
Definition web (u : string) : option Response :=
  option_map response (find (fun p => String.eqb (address p) u) pages).

Definition by_body (html : string) : option page :=
  find (fun p => String.eqb (text (response p)) html) pages.

Definition scrape (html targetUrl : string) : option Metadata :=
  match by_body html with
  | Some p => Some (scraped p)
  | None => Some nothing_found
  end.

Definition load (html : string) : document :=
  match by_body html with
  | Some p => tree p
  | None => empty_tree
  end.

#[export] Instance platform : Platform := {
  new_URL := URL_constructor;
  fetch := web;
  scraper := scrape;
  cheerio_load := load
}.

End Ref.

(** ** The other handler and further readings of the document *)

(** [GET]: the route answers every GET with status 405. *)
Definition GET : NextResponse :=
  error_response "Method not allowed. Use POST request with URL in body." 405.

(** The attribute [name] of the first element that satisfies [f], when it is
    a non-empty string. *)
Definition first_nonempty (f : element -> bool) (name : string) (d : document)
  : option string :=
  match find f d with
  | Some e =>
      match attr name e with
      | Some v => if String.eqb v "" then None else Some v
      | None => None
      end
  | None => None
  end.

Definition is_html (e : element) : bool := String.eqb (tag e) "html".

Definition is_content_language (e : element) : bool :=
  String.eqb (tag e) "meta" &&
  match attr "http-equiv" e with
  | Some v => same_ignoring_case v "content-language"
  | None => false
  end.

(** The sweeps without the second one: Open Graph tags, then every meta tag
    that has a name. *)
Definition collect_meta_two_sweeps (d : document) : obj :=
  fold_left (record_meta "name") (select named_tags d)
    (fold_left (record_meta "property") (select og_tags d) []).

(** ** The page ([Home], the client of the route) *)

(** What the page obtains from its runtime: [String.prototype.trim], and the
    exchange with [/api/metadata], given the [url] member of the posted
    body.  The exchange is [Rejected] when [fetch] or [response.json()] throws
    an [Error], with its message; else it is [Answered] with the status and
    the parsed body. *)
Inductive api_outcome : Type :=
| Rejected (message : string)
| Answered (st : nat) (data : list (string * json)).

Class Browser : Type := {
  trim : string -> string;
  api : string -> api_outcome
}.

(** The state of the component. *)
Record HomeState : Type := {
  st_url : string;
  st_loading : bool;
  st_result : option (list (string * json));
  st_error : string;
  st_failedImages : list string
}.

(** [String(value)] for an array of strings. *)
Fixpoint join (l : list string) : string :=
  match l with
  | [] => ""
  | [x] => x
  | x :: l' => x ++ "," ++ join l'
  end.

(** [data.error || "Failed to extract metadata"], as the message of the
    [Error] that is thrown. *)
Definition error_message (data : list (string * json)) : string :=
  match json_get "error" data with
  | Some (JsonString s) =>
      if String.eqb s "" then "Failed to extract metadata" else s
  | Some (JsonArray l) => join l
  | Some JsonNull | None => "Failed to extract metadata"
  end.

(** [handleSubmit]: the state when the handler has run to its end, and the
    [url] members it posted. *)
Definition handleSubmit {B : Browser} (s : HomeState)
  : HomeState * list string :=
  if String.eqb (trim (st_url s)) "" then
    ({| st_url := st_url s; st_loading := st_loading s;
        st_result := st_result s; st_error := "Please enter a URL";
        st_failedImages := st_failedImages s |}, [])
  else
    match api (trim (st_url s)) with
    | Rejected message =>
        ({| st_url := st_url s; st_loading := false; st_result := None;
            st_error := message; st_failedImages := st_failedImages s |},
         [trim (st_url s)])
    | Answered st data =>
        if ((200 <=? st) && (st <=? 299))%nat then
          ({| st_url := st_url s; st_loading := false;
              st_result := Some data; st_error := "";
              st_failedImages := st_failedImages s |},
           [trim (st_url s)])
        else
          ({| st_url := st_url s; st_loading := false; st_result := None;
              st_error := error_message data;
              st_failedImages := st_failedImages s |},
           [trim (st_url s)])
    end.

(** The route behind the page: the posted [url] member reaches [POST] as the
    string it is. *)
Definition served {P : Platform} (now : string) (u : string) : api_outcome :=
  let (resp, _) := POST (JsonBody (Some u)) now in
  Answered (res_status resp) (res_body resp).

(** What one metadata item shows below its label: an image (the optimised
    component, or the plain element once loading it has failed), a link, a
    list whose entries are links or text, or text. *)
Inductive item_body : Type :=
| ImageBody (src : string) (optimised : bool)
| LinkBody (link_href : string)
| ListBody (entries : list (option string * string))
| TextBody (content : string).

Record item : Type := {
  item_key : string;
  item_label : string;
  item_body_of : item_body
}.

(** [!value] is false. *)
Definition json_truthy (v : option json) : bool :=
  match v with
  | Some (JsonString s) => negb (String.eqb s "")
  | Some (JsonArray _) => true
  | Some JsonNull | None => false
  end.

(** [renderMetadataItem]; [None] is the [null] that renders nothing. *)
Definition renderMetadataItem (failedImages : list string) (label : string)
  (value : option json) (key : string) : option item :=
  match value with
  | None | Some JsonNull => None
  | Some (JsonString v) =>
      if String.eqb v "" then None
      else
        let isUrl := prefix "http" v || prefix "//" v in
        let isImage := String.eqb key "image" || String.eqb key "logo" ||
                       String.eqb key "favicon" in
        Some {| item_key := key; item_label := label;
                item_body_of :=
                  if isImage
                  then ImageBody v (negb (existsb (String.eqb v) failedImages))
                  else if isUrl then LinkBody v
                  else TextBody v |}
  | Some (JsonArray l) =>
      Some {| item_key := key; item_label := label;
              item_body_of :=
                ListBody (map (fun entry =>
                                 if prefix "http" entry
                                 then (Some entry, entry)
                                 else (None, entry)) l) |}
  end.

(** The keys shown in the first part of the list, with their labels. *)
Definition primary : list (string * string) :=
  [("Final URL", "url"); ("Title", "title"); ("Description", "description");
   ("Main Image", "image"); ("Logo", "logo"); ("Favicon", "favicon");
   ("Author", "author"); ("Publisher", "publisher");
   ("Publication Date", "date"); ("Language", "language");
   ("Canonical URL", "canonical"); ("RSS/Atom Feeds", "feeds")].

(** The keys the second part of the list leaves out. *)
Definition excluded : list string :=
  ["url"; "title"; "description"; "image"; "logo"; "favicon"; "author";
   "publisher"; "date"; "language"; "canonical"; "feeds"; "extractedAt"].

Definition in_range (lo hi : nat) (c : ascii) : bool :=
  ((lo <=? nat_of_ascii c) && (nat_of_ascii c <=? hi))%nat.

(** [\w]: a letter, a digit or the underscore. *)
Definition is_word (c : ascii) : bool :=
  in_range 65 90 c || in_range 97 122 c || in_range 48 57 c ||
  Ascii.eqb c "_".

(** [toUpperCase] on a character that [\w] matches. *)
Definition toUpperCase (c : ascii) : ascii :=
  if in_range 97 122 c then ascii_of_nat (nat_of_ascii c - 32) else c.

(** [.replace(/[:-]/g, " ")] *)
Fixpoint spaced (s : string) : string :=
  match s with
  | EmptyString => EmptyString
  | String c s' =>
      String (if Ascii.eqb c ":" || Ascii.eqb c "-" then " "%char else c)
             (spaced s')
  end.

(** [.replace(/\b\w/g, (l) => l.toUpperCase())]; [inside] tells whether the
    character before is a word character. *)
Fixpoint capitalised (inside : bool) (s : string) : string :=
  match s with
  | EmptyString => EmptyString
  | String c s' =>
      String (if is_word c && negb inside then toUpperCase c else c)
             (capitalised (is_word c) s')
  end.

(** The label of a key in the second part of the list. *)
Definition label_of (key : string) : string := capitalised false (spaced key).

(** The children of the list: the twelve primary items, then one item for
    every other entry of the result, in the order of [Object.entries]. *)
Definition rendered (failedImages : list string)
  (result : list (string * json)) : list (option item) :=
  map (fun lk => renderMetadataItem failedImages (fst lk)
                   (json_get (snd lk) result) (snd lk)) primary
  ++
  map (fun kv => renderMetadataItem failedImages (label_of (fst kv))
                   (Some (snd kv)) (fst kv))
      (filter (fun kv => negb (existsb (String.eqb (fst kv)) excluded)) result).

(** The items that are shown. *)
Fixpoint shown (l : list (option item)) : list item :=
  match l with
  | [] => []
  | Some i :: l' => i :: shown l'
  | None :: l' => shown l'
  end.

(** The targets of the anchors of an item. *)
Fixpoint entry_hrefs (entries : list (option string * string)) : list string :=
  match entries with
  | [] => []
  | (Some h, _) :: entries' => h :: entry_hrefs entries'
  | (None, _) :: entries' => entry_hrefs entries'
  end.

Definition hrefs_of (b : item_body) : list string :=
  match b with
  | LinkBody h => [h]
  | ListBody entries => entry_hrefs entries
  | ImageBody _ _ | TextBody _ => []
  end.

(** The trimming of the examples: white space of the ASCII range (space,
    tab, line feed, vertical tab, form feed, carriage return) is cut off at
    both ends. *)
Module RefBrowser.

Definition is_space (c : ascii) : bool :=
  Ascii.eqb c " " || in_range 9 13 c.

Fixpoint trim_start (s : string) : string :=
  match s with
  | String c s' => if is_space c then trim_start s' else s
  | EmptyString => EmptyString
  end.

Fixpoint trim_end (s : string) : string :=
  match s with
  | String c s' =>
      match trim_end s' with
      | EmptyString => if is_space c then EmptyString else String c EmptyString
      | rest => String c rest
      end
  | EmptyString => EmptyString
  end.

Definition trim_ascii (s : string) : string := trim_end (trim_start s).

Definition initial (u : string) : HomeState :=
  {| st_url := u; st_loading := false; st_result := None; st_error := "";
     st_failedImages := [] |}.

End RefBrowser.

(** * Properties *)

(** ** Objects *)

Lemma obj_get_set_eq (k : string) (v : jsval) (o : obj) :
  obj_get k (obj_set k v o) = Some v.
Proof.
  induction o as [|[k' v'] o IH]; simpl.
  - now rewrite String.eqb_refl.
  - destruct (String.eqb k k') eqn:E; simpl; rewrite E; auto.
Qed.

Lemma obj_get_set_ne (k k' : string) (v : jsval) (o : obj) :
  k <> k' -> obj_get k' (obj_set k v o) = obj_get k' o.
Proof.
  intros Hne. induction o as [|[k0 v0] o IH]; simpl.
  - destruct (String.eqb k' k) eqn:E; auto.
    apply String.eqb_eq in E. congruence.
  - destruct (String.eqb k k0) eqn:E; simpl.
    + apply String.eqb_eq in E. subst k0.
      destruct (String.eqb k' k) eqn:E'; auto.
      apply String.eqb_eq in E'. congruence.
    + now rewrite IH.
Qed.

Lemma obj_get_set (k k' : string) (v : jsval) (o : obj) :
  obj_get k' (obj_set k v o) = if String.eqb k' k then Some v else obj_get k' o.
Proof.
  destruct (String.eqb k' k) eqn:E.
  - apply String.eqb_eq in E. subst. apply obj_get_set_eq.
  - apply String.eqb_neq in E. apply obj_get_set_ne. congruence.
Qed.

Lemma obj_get_None_keys (k : string) (o : obj) :
  obj_get k o = None <-> ~ In k (obj_keys o).
Proof.
  induction o as [|[k' v'] o IH]; simpl.
  - tauto.
  - destruct (String.eqb k k') eqn:E.
    + apply String.eqb_eq in E. subst. split; [discriminate | tauto].
    + apply String.eqb_neq in E. rewrite IH. split.
      * intros H [H1 | H1]; [congruence | tauto].
      * tauto.
Qed.

Lemma obj_keys_set (k : string) (v : jsval) (o : obj) :
  obj_keys (obj_set k v o) =
  match obj_get k o with
  | Some _ => obj_keys o
  | None => obj_keys o ++ [k]
  end.
Proof.
  induction o as [|[k' v'] o IH]; simpl; auto.
  destruct (String.eqb k k') eqn:E; simpl; auto.
  rewrite IH. now destruct (obj_get k o).
Qed.

(** Writing a property keeps every key single. *)
Lemma obj_set_NoDup (k : string) (v : jsval) (o : obj) :
  NoDup (obj_keys o) -> NoDup (obj_keys (obj_set k v o)).
Proof.
  intros H. rewrite obj_keys_set.
  destruct (obj_get k o) eqn:E; auto.
  apply obj_get_None_keys in E.
  apply NoDup_app; auto.
  - constructor; [simpl; tauto | constructor].
  - intros x Hx [Hk | []]. subst. tauto.
Qed.

Lemma obj_spread_NoDup (source target : obj) :
  NoDup (obj_keys target) -> NoDup (obj_keys (obj_spread source target)).
Proof.
  unfold obj_spread. revert target.
  induction source as [|[k v] source IH]; simpl; intros target H; auto.
  apply IH. now apply obj_set_NoDup.
Qed.

(** A spread property wins over the property of the target. *)
Lemma obj_get_spread (k : string) (source target : obj) :
  NoDup (obj_keys source) ->
  obj_get k (obj_spread source target) =
  match obj_get k source with
  | Some v => Some v
  | None => obj_get k target
  end.
Proof.
  unfold obj_spread. revert target.
  induction source as [|[k' v'] source IH]; simpl; intros target H; auto.
  inversion H as [|? ? Hnotin Hnd]; subst.
  rewrite (IH _ Hnd).
  destruct (String.eqb k k') eqn:E.
  - apply String.eqb_eq in E. subst k'.
    apply obj_get_None_keys in Hnotin. rewrite Hnotin.
    apply obj_get_set_eq.
  - apply String.eqb_neq in E.
    destruct (obj_get k source); auto.
    apply obj_get_set_ne. congruence.
Qed.

(** The serialised object has the properties of the object, those with the
    value [undefined] left out. *)
Lemma json_get_to_json (k : string) (o : obj) :
  NoDup (obj_keys o) ->
  json_get k (to_json o) =
  match obj_get k o with
  | Some v => json_of v
  | None => None
  end.
Proof.
  induction o as [|[k' v'] o IH]; simpl; intros H; auto.
  inversion H as [|? ? Hnotin Hnd]; subst.
  specialize (IH Hnd).
  destruct (String.eqb k k') eqn:E.
  - apply String.eqb_eq in E. subst k'.
    apply obj_get_None_keys in Hnotin. rewrite Hnotin in IH.
    destruct v'; simpl; try rewrite String.eqb_refl; auto.
  - destruct v'; simpl; try rewrite E; auto.
Qed.

Lemma In_to_json (k : string) (j : json) (o : obj) :
  In (k, j) (to_json o) -> exists v, In (k, v) o /\ json_of v = Some j.
Proof.
  induction o as [|[k' v'] o IH]; simpl; [tauto|].
  destruct v'; simpl.
  - intros H. destruct (IH H) as [v [H1 H2]]. eauto.
  - intros [H | H].
    + inversion H; subst. exists JNull. auto.
    + destruct (IH H) as [v [H1 H2]]. eauto.
  - intros [H | H].
    + inversion H; subst. exists (JString s). auto.
    + destruct (IH H) as [v [H1 H2]]. eauto.
  - intros [H | H].
    + inversion H; subst. exists (JStrings l). auto.
    + destruct (IH H) as [v [H1 H2]]. eauto.
Qed.

Lemma In_obj_get (k : string) (v : jsval) (o : obj) :
  NoDup (obj_keys o) -> In (k, v) o -> obj_get k o = Some v.
Proof.
  induction o as [|[k' v'] o IH]; simpl; [tauto|].
  intros H [Heq | Hin].
  - inversion Heq; subst. now rewrite String.eqb_refl.
  - inversion H as [|? ? Hnotin Hnd]; subst.
    destruct (String.eqb k k') eqn:E; auto.
    apply String.eqb_eq in E. subst k'.
    exfalso. apply Hnotin. change k with (fst (k, v)). now apply in_map.
Qed.

(** ** The sweeps over the meta tags *)

Section Sweeps.

Context {P : Platform}.

Lemma record_meta_get (key k : string) (m : obj) (e : element) :
  obj_get k (record_meta key m e) =
  match recorded key k e with
  | Some c => Some (JString c)
  | None => obj_get k m
  end.
Proof.
  unfold record_meta, recorded, recordable, assign.
  destruct (attr key e) as [k'|]; auto.
  destruct (attr "content" e) as [c|]; auto.
  simpl truthy.
  destruct (String.eqb k' k) eqn:E.
  - apply String.eqb_eq in E. subst k'.
    destruct (String.eqb k ""), (String.eqb c ""),
             (String.eqb k "__proto__"); simpl; auto.
    apply obj_get_set_eq.
  - simpl. apply String.eqb_neq in E.
    destruct (negb (String.eqb k' "") && negb (String.eqb c "")); auto.
    destruct (String.eqb k' "__proto__"); auto.
    now apply obj_get_set_ne.
Qed.

Lemma sweep_get (key k : string) (els : list element) (m : obj) :
  obj_get k (fold_left (record_meta key) els m) =
  match last_recorded key k els with
  | Some c => Some (JString c)
  | None => obj_get k m
  end.
Proof.
  unfold last_recorded.
  revert m. induction els as [|e els IH]; simpl; intros m; auto.
  rewrite IH. destruct (last_some (recorded key k) els); auto.
  apply record_meta_get.
Qed.

Lemma record_meta_NoDup (key : string) (m : obj) (e : element) :
  NoDup (obj_keys m) -> NoDup (obj_keys (record_meta key m e)).
Proof.
  intros H. unfold record_meta, assign.
  destruct (attr key e) as [k|]; auto. destruct (attr "content" e); auto.
  destruct (_ && _); auto.
  destruct (String.eqb k "__proto__"); auto. now apply obj_set_NoDup.
Qed.

Lemma sweep_NoDup (key : string) (els : list element) (m : obj) :
  NoDup (obj_keys m) -> NoDup (obj_keys (fold_left (record_meta key) els m)).
Proof.
  revert m. induction els as [|e els IH]; simpl; intros m H; auto.
  apply IH. now apply record_meta_NoDup.
Qed.

(** The last contribution among the selected elements, read on the whole
    document. *)
Lemma last_some_filter {A B : Type} (f : A -> bool) (g : A -> option B)
  (l : list A) :
  last_some g (filter f l) = last_some (fun x => if f x then g x else None) l.
Proof.
  induction l as [|x l IH]; simpl; auto.
  rewrite <- IH. destruct (f x); simpl; auto.
  now destruct (last_some g (filter f l)).
Qed.

Lemma last_some_ext {A B : Type} (g h : A -> option B) (l : list A) :
  (forall x, g x = h x) -> last_some g l = last_some h l.
Proof.
  intros H. induction l as [|x l IH]; simpl; auto.
  now rewrite IH, H.
Qed.

Lemma last_some_none {A B : Type} (l : list A) :
  last_some (fun _ : A => @None B) l = None.
Proof. induction l as [|x l IH]; simpl; auto. now rewrite IH. Qed.

Lemma named_sweep (k : string) (d : document) :
  last_recorded "name" k (select named_tags d) = last_occurrence "name" k d.
Proof.
  unfold last_recorded, last_occurrence, select.
  rewrite last_some_filter. apply last_some_ext. intros e.
  unfold occurrence, recorded, named_tags, tag_attr, matches; simpl.
  destruct (String.eqb (tag e) "meta"); simpl; auto.
  destruct (attr "name" e); simpl; auto.
Qed.

Lemma last_some_None {A B : Type} (g : A -> option B) (l : list A) :
  last_some g l = None <-> forall x, In x l -> g x = None.
Proof.
  induction l as [|x l IH]; simpl.
  - tauto.
  - destruct (last_some g l) eqn:E.
    + split; [discriminate|]. intros H.
      assert (Some b = None) by (apply IH; auto). discriminate.
    + split.
      * intros Hx y [<- | Hy]; auto. now apply IH.
      * auto.
Qed.

Lemma twitter_sweep (k : string) (d : document) :
  last_occurrence "name" k d = None ->
  last_recorded "name" k (select twitter_tags d) = None.
Proof.
  unfold last_recorded, last_occurrence, select.
  rewrite last_some_filter, !last_some_None.
  intros H e He. specialize (H e He).
  destruct (existsb _ _) eqn:Hm; auto.
  unfold twitter_tags, tag_attr, matches in Hm. cbn [existsb sel_tag] in Hm.
  unfold occurrence in H. unfold recorded.
  destruct (String.eqb (tag e) "meta"); [exact H | discriminate].
Qed.

Lemma og_sweep (k : string) (d : document) :
  last_recorded "property" k (select og_tags d) =
  if prefix "og:" k then last_occurrence "property" k d else None.
Proof.
  unfold last_recorded, last_occurrence, select.
  rewrite last_some_filter.
  transitivity
    (last_some (fun e => if prefix "og:" k then occurrence "property" k e
                         else None) d).
  - apply last_some_ext. intros e.
    unfold occurrence, recorded, og_tags, tag_attr, matches, test_holds.
    cbn [sel_tag sel_test existsb].
    destruct (String.eqb (tag e) "meta"); simpl andb.
    + destruct (attr "property" e) as [w|]; [|now destruct (prefix "og:" k)].
      destruct (attr "content" e) as [c|];
        [|now destruct (prefix "og:" k), (prefix "og:" w)].
      destruct (String.eqb w k) eqn:E.
      * apply String.eqb_eq in E. subst w.
        change (negb (String.eqb "og:" "")) with true. cbn [andb orb].
        now destruct (prefix "og:" k).
      * simpl. now destruct (prefix "og:" k), (_ || false).
    + now destruct (prefix "og:" k).
  - destruct (prefix "og:" k); auto. apply last_some_none.
Qed.

(** The value the three sweeps leave under a key: the last named occurrence
    with content, and without one the last Open Graph occurrence. *)
Lemma collect_meta_get (k : string) (d : document) :
  obj_get k (collect_meta d) =
  match last_occurrence "name" k d with
  | Some c => Some (JString c)
  | None =>
      if prefix "og:" k
      then option_map JString (last_occurrence "property" k d)
      else None
  end.
Proof.
  unfold collect_meta. rewrite sweep_get, named_sweep.
  destruct (last_occurrence "name" k d) eqn:E; auto.
  rewrite sweep_get, (twitter_sweep k d E), sweep_get, og_sweep.
  destruct (prefix "og:" k); reflexivity.
Qed.

Lemma collect_meta_NoDup (d : document) : NoDup (obj_keys (collect_meta d)).
Proof.
  unfold collect_meta. do 3 apply sweep_NoDup. constructor.
Qed.

End Sweeps.

(** ** Canonical, favicon, language and feeds *)

Section Links.

Context {P : Platform}.

Lemma first_attr_find (s : selector) (name : string) (d : document) :
  first_attr s name d =
  match find (fun e => existsb (fun c => matches c e) s) d with
  | Some e => attr name e
  | None => None
  end.
Proof.
  unfold first_attr, select.
  induction d as [|e d IH]; simpl; auto.
  destruct (existsb _ s); auto.
Qed.

Lemma find_pointwise {A : Type} (f g : A -> bool) (l : list A) :
  (forall x, f x = g x) -> find f l = find g l.
Proof.
  intros H. induction l as [|x l IH]; simpl; auto.
  now rewrite H, IH.
Qed.

Lemma icon_href_first_attr (rel : string) (d : document) :
  icon_href rel d =
  if truthy (first_attr (link_rel rel) "href" d)
  then first_attr (link_rel rel) "href" d else None.
Proof.
  rewrite first_attr_find. unfold icon_href.
  rewrite (find_pointwise _
             (fun e => existsb (fun c => matches c e) (link_rel rel))).
  - destruct (find _ d) as [e|]; auto.
    destruct (attr "href" e) as [h|]; auto.
    simpl. now destruct (String.eqb h "").
  - intros e. unfold link_rel, tag_attr, matches; simpl.
    now rewrite orb_false_r.
Qed.

(** The chain of [||] picks the candidate of highest priority. *)
Lemma favicon_href_priority (d : document) :
  (if truthy (favicon_href d) then favicon_href d else None) =
  favicon_by_priority d.
Proof.
  unfold favicon_by_priority, favicon_href, js_or. simpl.
  rewrite !icon_href_first_attr.
  destruct (first_attr (link_rel "icon") "href" d) as [[|? ?]|],
           (first_attr (link_rel "shortcut icon") "href" d) as [[|? ?]|],
           (first_attr (link_rel "apple-touch-icon") "href" d) as [[|? ?]|];
    reflexivity.
Qed.

Lemma with_favicon_priority (d : document) (t : string) (m : obj) :
  with_favicon d t m =
  match favicon_by_priority d with
  | Some h =>
      match absolute h t with
      | Some a => Some (obj_set "favicon" (JString a) m)
      | None => None
      end
  | None => Some m
  end.
Proof.
  rewrite <- favicon_href_priority. unfold with_favicon.
  destruct (favicon_href d) as [h|]; auto.
  now destruct (truthy (Some h)).
Qed.

Lemma feed_links_matches (e : element) :
  existsb (fun c => matches c e) feed_links = is_feed_link e.
Proof.
  unfold feed_links, is_feed_link, matches; simpl.
  destruct (String.eqb (tag e) "link"); simpl; auto.
  destruct (attr "type" e); simpl; auto.
  now rewrite orb_false_r.
Qed.

Lemma push_feeds_hrefs (d : document) (t : string) (acc : list string) :
  push_feeds (select feed_links d) t acc =
  match all_absolute t (feed_hrefs d) with
  | Some l => Some (acc ++ l)
  | None => None
  end.
Proof.
  unfold select.
  rewrite (filter_ext _ is_feed_link feed_links_matches).
  revert acc.
  induction d as [|e d IH]; simpl; intros acc.
  - now rewrite app_nil_r.
  - destruct (is_feed_link e); auto. simpl.
    destruct (attr "href" e) as [h|]; auto.
    destruct (String.eqb h ""); simpl; auto.
    destruct (absolute h t) as [a|]; auto.
    rewrite IH. destruct (all_absolute t (feed_hrefs d)); auto.
    now rewrite <- app_assoc.
Qed.

Lemma all_absolute_Forall2 (t : string) (hs l : list string) :
  all_absolute t hs = Some l ->
  Forall2 (fun h a => absolute h t = Some a) hs l.
Proof.
  revert l. induction hs as [|h hs IH]; simpl; intros l H.
  - inversion H. constructor.
  - destruct (absolute h t) as [a|] eqn:E; [|discriminate].
    destruct (all_absolute t hs) as [l'|]; [|discriminate].
    inversion H. constructor; auto.
Qed.

Lemma all_absolute_None (t : string) (hs : list string) (h : string) :
  In h hs -> absolute h t = None -> all_absolute t hs = None.
Proof.
  intros Hin Hh. induction hs as [|h' hs IH]; simpl; [easy|].
  destruct Hin as [-> | Hin].
  - now rewrite Hh.
  - rewrite (IH Hin). now destruct (absolute h' t).
Qed.

Lemma with_feeds_hrefs (d : document) (t : string) (m : obj) :
  with_feeds d t m =
  match all_absolute t (feed_hrefs d) with
  | Some [] => Some m
  | Some l => Some (obj_set "feeds" (JStrings l) m)
  | None => None
  end.
Proof.
  unfold with_feeds. rewrite push_feeds_hrefs. simpl.
  destruct (all_absolute t (feed_hrefs d)) as [[|a l]|]; auto.
Qed.

(** The steps after the sweeps touch their own key only. *)
Lemma with_canonical_get (k : string) (d : document) (m : obj) :
  k <> "canonical" -> obj_get k (with_canonical d m) = obj_get k m.
Proof.
  intros H. unfold with_canonical.
  destruct (first_attr _ _ d) as [c|]; auto.
  destruct (truthy (Some c)); auto. apply obj_get_set_ne. congruence.
Qed.

Lemma with_language_get (k : string) (d : document) (m : obj) :
  k <> "language" -> obj_get k (with_language d m) = obj_get k m.
Proof.
  intros H. unfold with_language.
  destruct (lang_of d) as [c|]; auto.
  destruct (truthy (Some c)); auto. apply obj_get_set_ne. congruence.
Qed.

Lemma with_favicon_get (k : string) (d : document) (t : string) (m m' : obj) :
  with_favicon d t m = Some m' -> k <> "favicon" ->
  obj_get k m' = obj_get k m.
Proof.
  rewrite with_favicon_priority. intros H Hk.
  destruct (favicon_by_priority d) as [h|].
  - destruct (absolute h t); inversion H. apply obj_get_set_ne. congruence.
  - now inversion H.
Qed.

Lemma with_feeds_get (k : string) (d : document) (t : string) (m m' : obj) :
  with_feeds d t m = Some m' -> k <> "feeds" ->
  obj_get k m' = obj_get k m.
Proof.
  rewrite with_feeds_hrefs. intros H Hk.
  destruct (all_absolute t (feed_hrefs d)) as [[|a l]|]; inversion H; auto.
  apply obj_get_set_ne. congruence.
Qed.

(** A key that is none of the four keeps the value of the sweeps. *)
Lemma additionalMeta_get_meta (k : string) (d : document) (t : string)
  (aux : obj) :
  additionalMeta d t = Some aux -> ~ In k link_keys ->
  obj_get k aux = obj_get k (collect_meta d).
Proof.
  unfold additionalMeta, link_keys. simpl. intros H Hk.
  destruct (with_favicon d t _) as [m|] eqn:Ef; [|discriminate].
  rewrite (@with_feeds_get k _ _ _ _ H) by (intros ->; tauto).
  rewrite with_language_get by (intros ->; tauto).
  rewrite (@with_favicon_get k _ _ _ _ Ef) by (intros ->; tauto).
  apply with_canonical_get. intros ->; tauto.
Qed.

Lemma additionalMeta_NoDup (d : document) (t : string) (aux : obj) :
  additionalMeta d t = Some aux -> NoDup (obj_keys aux).
Proof.
  unfold additionalMeta. intros H.
  destruct (with_favicon d t _) as [m|] eqn:Ef; [|discriminate].
  assert (Hc : NoDup (obj_keys (with_canonical d (collect_meta d)))).
  { unfold with_canonical. pose proof (collect_meta_NoDup d).
    destruct (first_attr _ _ d) as [c|]; auto.
    destruct (truthy (Some c)); auto. now apply obj_set_NoDup. }
  assert (Hm : NoDup (obj_keys m)).
  { rewrite with_favicon_priority in Ef.
    destruct (favicon_by_priority d) as [h|].
    - destruct (absolute h t); inversion Ef. now apply obj_set_NoDup.
    - now inversion Ef. }
  assert (Hl : NoDup (obj_keys (with_language d m))).
  { unfold with_language. destruct (lang_of d) as [c|]; auto.
    destruct (truthy (Some c)); auto. now apply obj_set_NoDup. }
  rewrite with_feeds_hrefs in H.
  destruct (all_absolute t (feed_hrefs d)) as [[|a l]|]; inversion H; auto.
  now apply obj_set_NoDup.
Qed.

End Links.

(** ** The result object *)

Section Result.

Context {P : Platform}.

Lemma rule_fields_field (k : string) (t : string) (md : Metadata) :
  obj_get k
    [("url", JString t); ("title", title md);
     ("description", description md); ("image", image md);
     ("logo", logo md); ("author", author md); ("date", date md);
     ("publisher", publisher md)] =
  if String.eqb k "url" then Some (JString t)
  else if existsb (String.eqb k) rule_fields then Some (field md k)
  else None.
Proof.
  unfold field, rule_fields. cbn [obj_get existsb].
  destruct (String.eqb k "url"); auto.
  repeat match goal with
         | |- context [String.eqb k ?s] => destruct (String.eqb k s); cbn [orb]
         end; auto.
Qed.

Lemma base_NoDup (t : string) (md : Metadata) :
  NoDup (obj_keys
    [("url", JString t); ("title", title md);
     ("description", description md); ("image", image md);
     ("logo", logo md); ("author", author md); ("date", date md);
     ("publisher", publisher md)]).
Proof.
  simpl. repeat constructor; simpl; intuition discriminate.
Qed.

(** The value of a key of the result: the timestamp, else the collected
    tag, else the final URL or the scraper's field. *)
Lemma result_get (k t : string) (md : Metadata) (aux : obj) (now : string) :
  NoDup (obj_keys aux) ->
  obj_get k (result t md aux now) =
  if String.eqb k "extractedAt" then Some (JString now)
  else match obj_get k aux with
       | Some v => Some v
       | None =>
           if String.eqb k "url" then Some (JString t)
           else if existsb (String.eqb k) rule_fields then Some (field md k)
           else None
       end.
Proof.
  intros Hnd. unfold result. rewrite obj_get_set.
  destruct (String.eqb k "extractedAt"); auto.
  rewrite obj_get_spread by assumption.
  now rewrite rule_fields_field.
Qed.

Lemma result_NoDup (t : string) (md : Metadata) (aux : obj) (now : string) :
  NoDup (obj_keys (result t md aux now)).
Proof.
  unfold result. apply obj_set_NoDup, obj_spread_NoDup, base_NoDup.
Qed.

Lemma to_json_keys_In (k : string) (o : obj) :
  In k (map fst (to_json o)) -> In k (obj_keys o).
Proof.
  induction o as [|[k' v] o IH]; simpl; auto.
  destruct v; simpl; tauto.
Qed.

Lemma to_json_NoDup (o : obj) :
  NoDup (obj_keys o) -> NoDup (map fst (to_json o)).
Proof.
  induction o as [|[k v] o IH]; simpl; intros H; [constructor|].
  inversion H as [|? ? Hnotin Hnd]; subst.
  destruct v; simpl; auto; constructor; auto;
    intros Hin; apply Hnotin; now apply to_json_keys_In.
Qed.

Lemma rule_fields_In (k : string) :
  In k rule_fields <-> existsb (String.eqb k) rule_fields = true.
Proof.
  rewrite existsb_exists. split.
  - intros H. exists k. split; auto. apply String.eqb_refl.
  - intros [x [Hx He]]. apply String.eqb_eq in He. now subst.
Qed.

(** A successful answer comes from the last branch of the handler. *)
Lemma POST_200 (request : NextRequest) (now : string) (resp : NextResponse)
  (log : list string) :
  POST request now = (resp, log) -> res_status resp = 200 ->
  exists u response r,
    request = JsonBody (Some u) /\ u <> "" /\ isValidUrl u = true /\
    fetch u = Some response /\ ok response = true /\
    extraction (text response) (url response) now = Some r /\
    resp = NextResponse_json r 200 /\ log = [u].
Proof.
  unfold POST. intros H Hs.
  destruct request as [|[u|]];
    try (inversion H; subst; simpl in Hs; discriminate).
  destruct (truthy (Some u)) eqn:Et; simpl in H;
    [|inversion H; subst; simpl in Hs; discriminate].
  destruct (isValidUrl u) eqn:Ev; simpl in H;
    [|inversion H; subst; simpl in Hs; discriminate].
  destruct (fetch u) as [response|] eqn:Ef;
    [|inversion H; subst; simpl in Hs; discriminate].
  destruct (ok response) eqn:Eo; simpl in H;
    [|inversion H; subst; simpl in Hs; discriminate].
  destruct (extraction _ _ now) as [r|] eqn:Ee;
    [|inversion H; subst; simpl in Hs; discriminate].
  inversion H; subst. exists u, response, r.
  repeat split; auto.
  intros ->. discriminate.
Qed.

Lemma extraction_Some (html t now : string) (r : obj) :
  extraction html t now = Some r ->
  exists md aux,
    scraper html t = Some md /\
    additionalMeta (cheerio_load html) t = Some aux /\
    r = result t md aux now.
Proof.
  unfold extraction. intros H.
  destruct (scraper html t) as [md|]; [|discriminate].
  destruct (additionalMeta _ t) as [aux|]; [|discriminate].
  inversion H. eauto.
Qed.

End Result.

(** ** What a collected value can be *)

Section Values.

Context {P : Platform}.







Lemma all_absolute_length (t : string) (hs l : list string) :
  all_absolute t hs = Some l -> List.length l = List.length hs.
Proof.
  intros H. apply all_absolute_Forall2 in H.
  symmetry. eapply Forall2_length; eauto.
Qed.


End Values.

(** * The claims *)

Section Claims.

Context {P : Platform}.

(** C1, as the route has it.  The result has every key once, in the object
    and in its JSON form.  For each of the seven fields of the scraper the
    precedence is the reverse of the claimed one: a collected tag of the same
    name is the value of the result, and the scraper's value is there only
    when no such tag was collected. *)
Theorem C1_collected_tag_wins (d : document) (t : string) (md : Metadata)
  (aux : obj) (now : string) :
  additionalMeta d t = Some aux ->
  NoDup (obj_keys (result t md aux now)) /\
  NoDup (map fst (to_json (result t md aux now))) /\
  forall k, In k rule_fields ->
    obj_get k (result t md aux now) =
    Some (match obj_get k aux with
          | Some v => v
          | None => field md k
          end).
Proof.
  intros H. pose proof (result_NoDup t md aux now) as Hnd.
  split; [exact Hnd|]. split; [now apply to_json_NoDup|].
  intros k Hk.
  rewrite result_get by (eapply additionalMeta_NoDup; eauto).
  assert (Hx : String.eqb k "extractedAt" = false).
  { apply String.eqb_neq. intros ->. simpl in Hk. intuition discriminate. }
  assert (Hu : String.eqb k "url" = false).
  { apply String.eqb_neq. intros ->. simpl in Hk. intuition discriminate. }
  rewrite Hx, Hu. apply rule_fields_In in Hk. rewrite Hk.
  now destruct (obj_get k aux).
Qed.


(** C8, as the route has it.  For a key other than [canonical], [favicon],
    [language] and [feeds], the collected value is the content of the last
    meta element, in document order, that carries the key as its [name] with
    a non-empty content; when there is none and the key starts with [og:], it
    is the content of the last element that carries the key as its
    [property].  A named occurrence wins over a [property] occurrence
    wherever the two stand; an occurrence without content does not count, and
    neither does one under the key [__proto__], which is never recorded; a
    value is one occurrence's content, never a combination. *)
Theorem C8_last_named_occurrence (d : document) (t k : string) (aux : obj) :
  additionalMeta d t = Some aux ->
  ~ In k link_keys ->
  obj_get k aux =
  match last_occurrence "name" k d with
  | Some c => Some (JString c)
  | None =>
      if prefix "og:" k
      then option_map JString (last_occurrence "property" k d)
      else None
  end.
Proof.
  intros H Hk.
  rewrite (@additionalMeta_get_meta _ k _ _ _ H Hk).
  apply collect_meta_get.
Qed.

(** What the handler does once the address is accepted and fetched. *)
Lemma POST_fetched (u now : string) (response : Response) :
  u <> "" -> isValidUrl u = true -> fetch u = Some response ->
  ok response = true ->
  POST (JsonBody (Some u)) now =
  match extraction (text response) (url response) now with
  | None => (internal_error, [u])
  | Some r => (NextResponse_json r 200, [u])
  end.
Proof.
  intros Hu Hv Hf Ho. unfold POST.
  assert (Ht : truthy (Some u) = true).
  { simpl. destruct (String.eqb u "") eqn:E; auto.
    apply String.eqb_eq in E. congruence. }
  now rewrite Ht, Hv, Hf, Ho.
Qed.

Lemma additionalMeta_throws (d : document) (t h : string) :
  In h (candidates d) -> absolute h t = None -> additionalMeta d t = None.
Proof.
  unfold candidates, additionalMeta. intros Hin Ha.
  rewrite with_favicon_priority.
  destruct (favicon_by_priority d) as [f|].
  - destruct Hin as [-> | Hin].
    + now rewrite Ha.
    + destruct (absolute f t); auto.
      rewrite with_feeds_hrefs. now rewrite (all_absolute_None _ _ _ Hin Ha).
  - rewrite with_feeds_hrefs. now rewrite (all_absolute_None _ _ _ Hin Ha).
Qed.




(** C2, as the route has it.  When the favicon candidate or the [href] of a
    feed link does not start with [http] and cannot be resolved against the
    final URL, nothing is dropped: the exception of [new URL] reaches the
    [catch] of the handler and the request is answered with status 500 and
    the error "Failed to extract metadata". *)
Theorem C2_unresolvable_candidate_fails (u now h : string)
  (response : Response) :
  u <> "" -> isValidUrl u = true -> fetch u = Some response ->
  ok response = true ->
  In h (candidates (cheerio_load (text response))) ->
  prefix "http" h = false ->
  new_URL h (Some (url response)) = None ->
  POST (JsonBody (Some u)) now =
  ({| res_status := 500;
      res_body := [("error", JsonString "Failed to extract metadata")] |},
   [u]).
Proof.
  intros Hu Hv Hf Ho Hin Hp Hn.
  rewrite (POST_fetched u now response Hu Hv Hf Ho). unfold extraction.
  assert (Ha : absolute h (url response) = None).
  { unfold absolute. now rewrite Hp, Hn. }
  rewrite (additionalMeta_throws _ _ _ Hin Ha).
  now destruct (scraper _ _).
Qed.

(** C3, as the route has it.  The validator accepts a string exactly when
    the [URL] constructor accepts it; a host is not asked for.  A string that
    is empty or that the constructor rejects is answered with status 400 and
    no call of [fetch]; for every other string [fetch] is called once, with
    that string. *)
Theorem C3_validator_is_URL_constructor (s now : string) :
  (isValidUrl s = true <-> exists u, new_URL s None = Some u) /\
  ((s = "" \/ isValidUrl s = false) ->
     exists message,
       (message = "URL is required" \/ message = "Invalid URL format") /\
       POST (JsonBody (Some s)) now =
       ({| res_status := 400;
           res_body := [("error", JsonString message)] |}, [])) /\
  (s <> "" -> isValidUrl s = true ->
     snd (POST (JsonBody (Some s)) now) = [s]).
Proof.
  repeat split.
  - unfold isValidUrl. destruct (new_URL s None) as [u|]; [eauto | discriminate].
  - intros [u Hu]. unfold isValidUrl. now rewrite Hu.
  - intros [-> | Hv].
    + exists "URL is required". split; auto.
    + unfold POST. destruct (truthy (Some s)); simpl.
      * rewrite Hv. simpl. exists "Invalid URL format". split; auto.
      * exists "URL is required". split; auto.
  - intros Hs Hv. unfold POST.
    assert (Ht : truthy (Some s) = true).
    { simpl. destruct (String.eqb s "") eqn:E; auto.
      apply String.eqb_eq in E. congruence. }
    rewrite Ht, Hv. simpl.
    destruct (fetch s) as [response|]; auto.
    destruct (ok response); simpl; auto.
    now destruct (extraction _ _ now).
Qed.

Lemma nzhead_no_zero (d : Decimal.uint) :
  match Decimal.nzhead d with Decimal.D0 _ => False | _ => True end.
Proof. induction d; simpl; auto. Qed.

(** The numeral of a number has no zero in front of another digit. *)
Lemma decimal_canonical (n : nat) :
  decimal n = "0" \/ exists c s, decimal n = String c s /\ c <> "0"%char.
Proof.
  unfold decimal.
  assert (Hd : Decimal.unorm (Nat.to_uint n) = Nat.to_uint n).
  { rewrite <- DecimalNat.Unsigned.to_of.
    now rewrite DecimalNat.Unsigned.of_to. }
  rewrite <- Hd. unfold Decimal.unorm.
  pose proof (nzhead_no_zero (Nat.to_uint n)) as H.
  destruct (Decimal.nzhead (Nat.to_uint n)); simpl; auto; try tauto;
    right; eexists; eexists; (split; [reflexivity | discriminate]).
Qed.

(** The numeral written into a template literal denotes the number. *)
Lemma number_of_decimal (n : nat) : number_of (decimal n) = Some n.
Proof.
  assert (Hv : option_map Nat.of_uint (NilEmpty.uint_of_string (decimal n))
               = Some n).
  { unfold decimal. rewrite NilEmpty.usu. simpl.
    now rewrite DecimalNat.Unsigned.of_to. }
  unfold number_of.
  destruct (decimal_canonical n) as [H0 | [c [s [Hc Hne]]]].
  - rewrite H0 in *. exact Hv.
  - rewrite Hc in *. apply Ascii.eqb_neq in Hne. rewrite Hne. exact Hv.
Qed.

(** C5.  When the fetch completes with a status outside 200 to 299, the
    answer has status 400 and the error "Failed to fetch webpage: " followed
    by the decimal numeral of the status, a space and the reason phrase. *)
Theorem C5_fetch_failed (u now : string) (response : Response) :
  u <> "" -> isValidUrl u = true -> fetch u = Some response ->
  (status response < 200 \/ 299 < status response)%nat ->
  exists digits,
    number_of digits = Some (status response) /\
    POST (JsonBody (Some u)) now =
    ({| res_status := 400;
        res_body :=
          [("error",
            JsonString ("Failed to fetch webpage: " ++ digits
                          ++ " " ++ statusText response))] |},
     [u]).
Proof.
  intros Hu Hv Hf Hs. exists (decimal (status response)).
  split; [apply number_of_decimal|]. unfold POST.
  assert (Ht : truthy (Some u) = true).
  { simpl. destruct (String.eqb u "") eqn:E; auto.
    apply String.eqb_eq in E. congruence. }
  assert (Ho : ok response = false).
  { unfold ok. apply andb_false_iff.
    destruct Hs as [Hs | Hs]; [left | right]; apply Nat.leb_gt; lia. }
  now rewrite Ht, Hv, Hf, Ho.
Qed.



(** C10.  In every answer with status 200 the [extractedAt] of the body is
    the reading of the clock, whatever the document holds, since the key is
    written after the spread.  The [url] written before the spread gives way
    to a meta tag named [url]: it is the content of the last such tag, and
    the final URL only when the document has none. *)
Theorem C10_extractedAt_not_shadowed (request : NextRequest) (now : string)
  (resp : NextResponse) (log : list string) :
  POST request now = (resp, log) ->
  res_status resp = 200 ->
  json_get "extractedAt" (res_body resp) = Some (JsonString now) /\
  exists u response,
    request = JsonBody (Some u) /\ fetch u = Some response /\
    json_get "url" (res_body resp) =
    match last_occurrence "name" "url" (cheerio_load (text response)) with
    | Some c => Some (JsonString c)
    | None => Some (JsonString (url response))
    end.
Proof.
  intros H Hs.
  destruct (POST_200 _ _ _ _ H Hs)
    as [u [response [r [-> [Hu [Hv [Hf [Ho [He [-> ->]]]]]]]]]].
  destruct (extraction_Some _ _ _ _ He) as [md [aux [Hmd [Ha ->]]]].
  pose proof (additionalMeta_NoDup _ _ _ Ha) as Hnd.
  simpl res_body.
  rewrite !json_get_to_json by apply result_NoDup.
  rewrite !result_get by assumption.
  split; [reflexivity|].
  exists u, response. repeat split; auto.
  cbn [String.eqb Ascii.eqb Bool.eqb].
  rewrite (@additionalMeta_get_meta _ "url" _ _ _ Ha)
    by (unfold link_keys; simpl; intuition discriminate).
  rewrite collect_meta_get. cbn [prefix Ascii.ascii_dec].
  destruct (last_occurrence "name" "url" _); reflexivity.
Qed.

End Claims.

(** * Examples on the reference platform *)

(** C1 at a page with a meta tag named [title]. *)
Lemma C1_witness :
  additionalMeta (P := Ref.platform) [Ref.meta_name "title" "Tag title"]
    "https://example.com/" = Some [("title", JString "Tag title")] /\
  (NoDup (obj_keys (result "https://example.com/" Ref.nothing_found
                      [("title", JString "Tag title")] "T")) /\
   NoDup (map fst (to_json (result "https://example.com/" Ref.nothing_found
                              [("title", JString "Tag title")] "T"))) /\
   forall k, In k rule_fields ->
     obj_get k (result "https://example.com/" Ref.nothing_found
                  [("title", JString "Tag title")] "T") =
     Some (match obj_get k [("title", JString "Tag title")] with
           | Some v => v
           | None => field Ref.nothing_found k
           end)).
Proof.
  split; [reflexivity|].
  apply (C1_collected_tag_wins (P := Ref.platform)
           [Ref.meta_name "title" "Tag title"]).
  reflexivity.
Defined.

(** C1 as claimed fails: the scraper found the title "Rule title", the page
    has [<meta name='title' content='Tag title'>], and the [title] of the
    result is the tag's. *)
Lemma C1_counterexample :
  additionalMeta (P := Ref.platform) [Ref.meta_name "title" "Tag title"]
    "https://example.com/" = Some [("title", JString "Tag title")] /\
  to_json
    (result "https://example.com/"
       {| title := JString "Rule title"; description := JNull;
          image := JNull; logo := JNull; author := JNull; date := JNull;
          publisher := JNull |}
       [("title", JString "Tag title")] "T") =
  [("url", JsonString "https://example.com/");
   ("title", JsonString "Tag title");
   ("description", JsonNull); ("image", JsonNull); ("logo", JsonNull);
   ("author", JsonNull); ("date", JsonNull); ("publisher", JsonNull);
   ("extractedAt", JsonString "T")].
Proof. split; reflexivity. Qed.

(** C2 at the page whose icon link is [href='//']. *)
Lemma C2_witness :
  "https://example.com/broken" <> "" /\
  isValidUrl (P := Ref.platform) "https://example.com/broken" = true /\
  In "//" (candidates Ref.broken_tree) /\
  prefix "http" "//" = false /\
  new_URL (Platform := Ref.platform) "//" (Some "https://example.com/broken")
    = None /\
  POST (P := Ref.platform) (JsonBody (Some "https://example.com/broken")) "T" =
  ({| res_status := 500;
      res_body := [("error", JsonString "Failed to extract metadata")] |},
   ["https://example.com/broken"]).
Proof.
  split; [discriminate|].
  split; [reflexivity|].
  split; [left; reflexivity|].
  split; [reflexivity|].
  split; [reflexivity|].
  apply (C2_unresolvable_candidate_fails (P := Ref.platform)
           "https://example.com/broken" "T" "//"
           {| status := 200; statusText := "OK";
              url := "https://example.com/broken";
              text := Ref.broken_html |}).
  - discriminate.
  - reflexivity.
  - reflexivity.
  - reflexivity.
  - left; reflexivity.
  - reflexivity.
  - reflexivity.
Defined.

(** C2 as claimed fails: the icon link [href='//'] cannot be resolved, and
    the request is answered with status 500, not with a result that lacks the
    favicon. *)
Lemma C2_counterexample :
  favicon_by_priority Ref.broken_tree = Some "//" /\
  new_URL (Platform := Ref.platform) "//" (Some "https://example.com/broken")
    = None /\
  POST (P := Ref.platform) (JsonBody (Some "https://example.com/broken")) "T" =
  ({| res_status := 500;
      res_body := [("error", JsonString "Failed to extract metadata")] |},
   ["https://example.com/broken"]).
Proof. repeat split; reflexivity. Qed.

(** C3 at the string "not a url". *)
Lemma C3_witness :
  exists message,
    (message = "URL is required" \/ message = "Invalid URL format") /\
    POST (P := Ref.platform) (JsonBody (Some "not a url")) "T" =
    ({| res_status := 400;
        res_body := [("error", JsonString message)] |}, []).
Proof.
  apply (proj1 (proj2 (C3_validator_is_URL_constructor
                         (P := Ref.platform) "not a url" "T"))).
  right. reflexivity.
Defined.

(** C3 as claimed fails: "mailto:a@b.c" has a scheme and no host; the
    validator accepts it, and the handler calls [fetch] with it instead of
    answering 400. *)
Lemma C3_counterexample :
  isValidUrl (P := Ref.platform) "mailto:a@b.c" = true /\
  option_map hostname
    (new_URL (Platform := Ref.platform) "mailto:a@b.c" None) = Some "" /\
  POST (P := Ref.platform) (JsonBody (Some "mailto:a@b.c")) "T" =
  ({| res_status := 500;
      res_body := [("error", JsonString "Failed to extract metadata")] |},
   ["mailto:a@b.c"]).
Proof. repeat split; reflexivity. Qed.



(** C5 at an address answered with 404. *)
Lemma C5_witness :
  isValidUrl (P := Ref.platform) "https://example.com/missing" = true /\
  fetch (Platform := Ref.platform) "https://example.com/missing" =
    Some {| status := 404; statusText := "Not Found";
            url := "https://example.com/missing"; text := "" |} /\
  number_of "404" = Some 404 /\
  POST (P := Ref.platform) (JsonBody (Some "https://example.com/missing")) "T" =
  ({| res_status := 400;
      res_body :=
        [("error", JsonString "Failed to fetch webpage: 404 Not Found")] |},
   ["https://example.com/missing"]) /\
  exists digits,
    number_of digits = Some 404 /\
    POST (P := Ref.platform) (JsonBody (Some "https://example.com/missing")) "T"
    = ({| res_status := 400;
          res_body :=
            [("error",
              JsonString ("Failed to fetch webpage: " ++ digits
                            ++ " " ++ "Not Found"))] |},
       ["https://example.com/missing"]).
Proof.
  split; [reflexivity|]. split; [reflexivity|]. split; [reflexivity|].
  split; [reflexivity|].
  apply (C5_fetch_failed (P := Ref.platform) "https://example.com/missing" "T"
           {| status := 404; statusText := "Not Found";
              url := "https://example.com/missing"; text := "" |}).
  - discriminate.
  - reflexivity.
  - reflexivity.
  - right. simpl. lia.
Defined.





(** C8 at a page that names [description] twice. *)
Lemma C8_witness :
  additionalMeta (P := Ref.platform)
    [Ref.meta_name "description" "first"; Ref.meta_name "description" "second"]
    "https://example.com/page" = Some [("description", JString "second")] /\
  ~ In "description" link_keys /\
  obj_get "description" [("description", JString "second")] =
  Some (JString "second").
Proof.
  split; [reflexivity|].
  split; [simpl; intuition discriminate|].
  apply (C8_last_named_occurrence (P := Ref.platform)
           [Ref.meta_name "description" "first";
            Ref.meta_name "description" "second"]
           "https://example.com/page" "description").
  - reflexivity.
  - simpl; intuition discriminate.
Defined.

(** C8 as claimed fails: the key [og:title] occurs twice, the occurrence
    last in document order has the content "A", and the collected value is
    "B", the content of the named occurrence before it. *)
Lemma C8_counterexample :
  last_in_document "og:title"
    [Ref.meta_name "og:title" "B"; Ref.meta_property "og:title" "A"]
  = Some "A" /\
  additionalMeta (P := Ref.platform)
    [Ref.meta_name "og:title" "B"; Ref.meta_property "og:title" "A"]
    "https://example.com/page" = Some [("og:title", JString "B")].
Proof. split; reflexivity. Qed.

(** C10 at the page that has [<meta name='extractedAt' content='yesterday'>]
    and [<meta name='url' content='elsewhere'>]. *)
Lemma C10_witness :
  res_status
    (fst (POST (P := Ref.platform)
            (JsonBody (Some "https://example.com/page")) "T")) = 200 /\
  json_get "extractedAt"
    (res_body (fst (POST (P := Ref.platform)
                      (JsonBody (Some "https://example.com/page")) "T")))
  = Some (JsonString "T") /\
  json_get "url"
    (res_body (fst (POST (P := Ref.platform)
                      (JsonBody (Some "https://example.com/page")) "T")))
  = Some (JsonString "elsewhere") /\
  exists u response,
    JsonBody (Some "https://example.com/page") = JsonBody (Some u) /\
    fetch (Platform := Ref.platform) u = Some response /\
    json_get "url"
      (res_body (fst (POST (P := Ref.platform)
                        (JsonBody (Some "https://example.com/page")) "T")))
    = match last_occurrence "name" "url"
              (cheerio_load (Platform := Ref.platform) (text response)) with
      | Some c => Some (JsonString c)
      | None => Some (JsonString (url response))
      end.
Proof.
  split; [reflexivity|]. split; [reflexivity|]. split; [reflexivity|].
  apply (proj2 (C10_extractedAt_not_shadowed (P := Ref.platform)
                  (JsonBody (Some "https://example.com/page")) "T"
                  _ _ eq_refl eq_refl)).
Defined.

(** ** The prefix test of the two resolutions *)

(** An [href] that starts with the letters [http] is taken as it stands,
    also when it is a relative reference: the icon of a page under
    https://example.com/site/ whose link says [httpdocs/favicon.ico]. *)
Example favicon_http_prefix_kept :
  additionalMeta (P := Ref.platform)
    [Ref.link "rel" "icon" "httpdocs/favicon.ico"]
    "https://example.com/site/"
  = Some [("favicon", JString "httpdocs/favicon.ico")] /\
  is_absolute (P := Ref.platform) "httpdocs/favicon.ico" = false /\
  option_map href
    (new_URL (Platform := Ref.platform) "httpdocs/favicon.ico"
       (Some "https://example.com/site/"))
  = Some "https://example.com/site/httpdocs/favicon.ico".
Proof. repeat split; reflexivity. Qed.

Example feeds_http_prefix_kept :
  additionalMeta (P := Ref.platform)
    [Ref.link "type" "application/rss+xml" "http-feeds/rss.xml";
     Ref.link "type" "application/rss+xml" "/rss.xml"]
    "https://example.com/site/"
  = Some [("feeds", JStrings ["http-feeds/rss.xml";
                              "https://example.com/rss.xml"])] /\
  is_absolute (P := Ref.platform) "http-feeds/rss.xml" = false.
Proof. split; reflexivity. Qed.

(** * Further properties of the route *)

Section RouteProperties.

Context {P : Platform}.

(** X1.  Every answer of the route, to a GET or to a POST, either has status 200
    or has one of the statuses 400, 405 and 500 and a body that consists of
    the key [error] with a non-empty message: no part of a result goes out
    with an error. *)
Theorem route_error_shape (resp : NextResponse) :
  (resp = GET \/ exists request now, resp = fst (POST request now)) ->
  res_status resp = 200 \/
  ((res_status resp = 400 \/ res_status resp = 405 \/ res_status resp = 500) /\
   exists message,
     message <> "" /\ res_body resp = [("error", JsonString message)]).
Proof.
  intros [-> | [request [now ->]]].
  - right. split; [auto|]. eexists. split; [|reflexivity]. discriminate.
  - unfold POST.
    destruct request as [|[u|]];
      try (right; split; [simpl; auto|];
           eexists; split; [|reflexivity]; discriminate).
    destruct (truthy (Some u)); cbn [negb];
      [|right; split; [simpl; auto|];
        eexists; split; [|reflexivity]; discriminate].
    destruct (isValidUrl u); cbn [negb];
      [|right; split; [simpl; auto|];
        eexists; split; [|reflexivity]; discriminate].
    destruct (fetch u) as [response|];
      [|right; split; [simpl; auto|];
        eexists; split; [|reflexivity]; discriminate].
    destruct (ok response); cbn [negb].
    + destruct (extraction _ _ now); [left; reflexivity|].
      right; split; [simpl; auto|].
      eexists; split; [|reflexivity]; discriminate.
    + right; split; [simpl; auto|].
      eexists; split; [|reflexivity]. discriminate.
Qed.


Lemma all_absolute_http (t : string) (hs : list string) :
  (forall h, In h hs -> prefix "http" h = true) ->
  all_absolute t hs = Some hs.
Proof.
  induction hs as [|h hs IH]; simpl; intros H; auto.
  unfold absolute. rewrite (H h) by auto. rewrite IH; auto.
Qed.

(** X3.  A document whose link candidates all start with [http] never makes the
    link extraction throw, whatever the URL constructor does: the favicon
    candidate and the feed links are taken over as they are written. *)
Theorem http_candidates_kept (d : document) (t : string) :
  (forall h, In h (candidates d) -> prefix "http" h = true) ->
  exists aux,
    additionalMeta d t = Some aux /\
    (forall h, favicon_by_priority d = Some h ->
       obj_get "favicon" aux = Some (JString h)) /\
    (feed_hrefs d <> [] ->
       obj_get "feeds" aux = Some (JStrings (feed_hrefs d))).
Proof.
  unfold candidates, additionalMeta. intros H.
  rewrite with_favicon_priority.
  destruct (favicon_by_priority d) as [f|].
  - unfold absolute at 1. rewrite (H f) by (simpl; auto).
    rewrite with_feeds_hrefs.
    rewrite all_absolute_http by (intros h Hh; apply H; simpl; auto).
    destruct (feed_hrefs d) as [|x l].
    + eexists. split; [reflexivity|]. split; [|congruence].
      intros h Hh. inversion Hh. subst.
      rewrite with_language_get by discriminate. apply obj_get_set_eq.
    + eexists. split; [reflexivity|]. split.
      * intros h Hh. inversion Hh. subst.
        rewrite obj_get_set_ne by discriminate.
        rewrite with_language_get by discriminate. apply obj_get_set_eq.
      * intros _. apply obj_get_set_eq.
  - rewrite with_feeds_hrefs.
    rewrite all_absolute_http by (intros h Hh; apply H; auto).
    destruct (feed_hrefs d) as [|x l].
    + eexists. split; [reflexivity|]. split; [discriminate | congruence].
    + eexists. split; [reflexivity|]. split; [discriminate|].
      intros _. apply obj_get_set_eq.
Qed.

(** X4.  The sweep of the Twitter Card tags changes no value: under every key the
    three sweeps leave what the first and the third leave without it. *)
Theorem twitter_sweep_redundant (k : string) (d : document) :
  obj_get k (collect_meta d) = obj_get k (collect_meta_two_sweeps d).
Proof.
  rewrite collect_meta_get. unfold collect_meta_two_sweeps.
  rewrite sweep_get, named_sweep.
  destruct (last_occurrence "name" k d); auto.
  rewrite sweep_get, og_sweep.
  destruct (prefix "og:" k); reflexivity.
Qed.

Lemma last_some_Some {A B : Type} (g : A -> option B) (l : list A) (b : B) :
  last_some g l = Some b -> exists x, In x l /\ g x = Some b.
Proof.
  induction l as [|x l IH]; simpl; [discriminate|].
  destruct (last_some g l) as [b'|].
  - intros H. destruct (IH H) as [y [Hy Hg]]. eauto.
  - intros H. eauto.
Qed.

Lemma occurrence_Some (key k c : string) (e : element) :
  occurrence key k e = Some c ->
  tag e = "meta" /\ attr key e = Some k /\ attr "content" e = Some c /\
  k <> "" /\ c <> "".
Proof.
  unfold occurrence.
  destruct (String.eqb (tag e) "meta") eqn:Et; [|discriminate].
  destruct (attr key e) as [k'|]; [|discriminate].
  destruct (attr "content" e) as [c'|]; [|discriminate].
  destruct (String.eqb k' k) eqn:Ek; [|discriminate].
  unfold recordable.
  destruct (String.eqb k "") eqn:Ek0; [discriminate|].
  destruct (String.eqb k "__proto__"); [discriminate|].
  destruct (String.eqb c' "") eqn:Ec; [discriminate|].
  simpl. intros H. inversion H. subst.
  apply String.eqb_eq in Et, Ek. apply String.eqb_neq in Ek0, Ec.
  subst. auto.
Qed.

(** X5.  No collected key is made up: a key of [additionalMeta] other than
    [canonical], [favicon], [language] and [feeds] is the non-empty [name] or
    [property] of a meta element of the document, and its value is the
    non-empty [content] of that element. *)
Theorem collected_key_provenance (d : document) (t k : string) (aux : obj)
  (v : jsval) :
  additionalMeta d t = Some aux ->
  obj_get k aux = Some v ->
  In k link_keys \/
  (k <> "" /\
   exists e c,
     In e d /\ tag e = "meta" /\
     (attr "name" e = Some k \/ attr "property" e = Some k) /\
     attr "content" e = Some c /\ c <> "" /\ v = JString c).
Proof.
  intros Ha Hv.
  destruct (in_dec string_dec k link_keys) as [Hin | Hnin]; [now left|].
  right. rewrite (additionalMeta_get_meta k d t aux Ha Hnin) in Hv.
  rewrite collect_meta_get in Hv.
  destruct (last_occurrence "name" k d) as [c|] eqn:En.
  - destruct (last_some_Some _ _ _ En) as [e [Hin Ho]].
    destruct (occurrence_Some _ _ _ _ Ho) as [Ht [Hk [Hc [Hk0 Hc0]]]].
    split; auto. exists e, c. inversion Hv. repeat split; auto.
  - destruct (prefix "og:" k); [|discriminate].
    destruct (last_occurrence "property" k d) as [c|] eqn:Ep; [|discriminate].
    destruct (last_some_Some _ _ _ Ep) as [e [Hin Ho]].
    destruct (occurrence_Some _ _ _ _ Ho) as [Ht [Hk [Hc [Hk0 Hc0]]]].
    split; auto. exists e, c. inversion Hv. repeat split; auto.
Qed.

Lemma first_attr_nonempty (s : selector) (f : element -> bool)
  (name : string) (d : document) :
  (forall e, existsb (fun c => matches c e) s = f e) ->
  (if truthy (first_attr s name d) then first_attr s name d else None) =
  first_nonempty f name d.
Proof.
  intros H. rewrite first_attr_find. unfold first_nonempty.
  rewrite (find_pointwise _ f d H).
  destruct (find f d) as [e|]; auto.
  destruct (attr name e) as [[|c v]|]; reflexivity.
Qed.

Lemma canonical_matches (e : element) :
  existsb (fun c => matches c e) (link_rel "canonical") =
  is_link_rel "canonical" e.
Proof.
  unfold link_rel, tag_attr, matches, is_link_rel; simpl.
  now rewrite orb_false_r.
Qed.

(** X6.  The [canonical] of the result is the [href] of the first
    [link[rel="canonical"]] as it is written, relative or not, when that is a
    non-empty string; else it is the content of the last meta tag named
    [canonical], and without one the key is absent. *)
Theorem canonical_is_raw_href (d : document) (t : string) (md : Metadata)
  (aux : obj) (now : string) :
  additionalMeta d t = Some aux ->
  obj_get "canonical" (result t md aux now) =
  match first_nonempty (is_link_rel "canonical") "href" d with
  | Some h => Some (JString h)
  | None => option_map JString (last_occurrence "name" "canonical" d)
  end.
Proof.
  intros H. pose proof (additionalMeta_NoDup _ _ _ H) as Hnd.
  rewrite result_get by assumption. cbn [String.eqb Ascii.eqb Bool.eqb].
  unfold additionalMeta in H.
  destruct (with_favicon d t _) as [m|] eqn:Ef; [|discriminate].
  rewrite (with_feeds_get "canonical" _ _ _ _ H) by discriminate.
  rewrite with_language_get by discriminate.
  rewrite (with_favicon_get "canonical" _ _ _ _ Ef) by discriminate.
  rewrite <- (first_attr_nonempty (link_rel "canonical") _ "href" d
                canonical_matches).
  unfold with_canonical.
  destruct (first_attr (link_rel "canonical") "href" d) as [c|].
  - destruct (truthy (Some c)); [now rewrite obj_get_set_eq|].
    rewrite collect_meta_get. cbn [prefix].
    now destruct (last_occurrence "name" "canonical" d).
  - cbn [truthy]. rewrite collect_meta_get. cbn [prefix].
    now destruct (last_occurrence "name" "canonical" d).
Qed.

Lemma html_matches (e : element) :
  existsb (fun c => matches c e) (tag_sel "html") = is_html e.
Proof.
  unfold tag_sel, matches, is_html; simpl.
  now rewrite andb_true_r, orb_false_r.
Qed.

Lemma content_language_matches (e : element) :
  existsb (fun c => matches c e)
    (tag_attr "meta" (Equals "http-equiv" "content-language")) =
  is_content_language e.
Proof.
  unfold tag_attr, matches, is_content_language; simpl.
  now rewrite orb_false_r.
Qed.

(** X7.  The [language] of the result is the [lang] of the first [html] element
    when that is a non-empty string; else the content of the first
    [meta[http-equiv="content-language"]] when that is one; else the content
    of the last meta tag named [language]; else the key is absent. *)
Theorem language_precedence (d : document) (t : string) (md : Metadata)
  (aux : obj) (now : string) :
  additionalMeta d t = Some aux ->
  obj_get "language" (result t md aux now) =
  match first_nonempty is_html "lang" d with
  | Some l => Some (JString l)
  | None =>
      match first_nonempty is_content_language "content" d with
      | Some l => Some (JString l)
      | None => option_map JString (last_occurrence "name" "language" d)
      end
  end.
Proof.
  intros H. pose proof (additionalMeta_NoDup _ _ _ H) as Hnd.
  rewrite result_get by assumption. cbn [String.eqb Ascii.eqb Bool.eqb].
  unfold additionalMeta in H.
  destruct (with_favicon d t _) as [m|] eqn:Ef; [|discriminate].
  rewrite (with_feeds_get "language" _ _ _ _ H) by discriminate.
  rewrite <- (first_attr_nonempty (tag_sel "html") _ "lang" d html_matches).
  rewrite <- (first_attr_nonempty _ _ "content" d content_language_matches).
  assert (Hm : obj_get "language" m =
               option_map JString (last_occurrence "name" "language" d)).
  { rewrite (with_favicon_get "language" _ _ _ _ Ef) by discriminate.
    rewrite with_canonical_get by discriminate.
    rewrite collect_meta_get. cbn [prefix].
    now destruct (last_occurrence "name" "language" d). }
  unfold with_language, lang_of, js_or.
  destruct (first_attr (tag_sel "html") "lang" d) as [[|a l]|];
    destruct (first_attr _ "content" d) as [[|b l']|];
    cbn [truthy String.eqb negb]; try rewrite obj_get_set_eq;
    try rewrite Hm;
    try now destruct (last_occurrence "name" "language" d).
Qed.

Lemma obj_keys_spread_In (k : string) (source target : obj) :
  In k (obj_keys (obj_spread source target)) <->
  In k (obj_keys target) \/ In k (obj_keys source).
Proof.
  unfold obj_spread. revert target.
  induction source as [|[k' v'] source IH]; simpl; intros target.
  - tauto.
  - rewrite IH, obj_keys_set.
    destruct (obj_get k' target) eqn:E.
    + assert (In k' (obj_keys target)).
      { destruct (in_dec string_dec k' (obj_keys target)) as [|Hn]; auto.
        apply obj_get_None_keys in Hn. congruence. }
      split; [tauto|]. intros [H1 | [<- | H1]]; auto.
    + rewrite in_app_iff. simpl. tauto.
Qed.

(** X8.  The keys of the result are the nine keys of the object literal and the
    collected keys, and nothing else. *)
Theorem result_keys (t : string) (md : Metadata) (aux : obj) (now k : string) :
  In k (obj_keys (result t md aux now)) <->
  In k literal_keys \/ In k (obj_keys aux).
Proof.
  unfold result. rewrite obj_keys_set.
  destruct (obj_get "extractedAt" _) eqn:E.
  - rewrite obj_keys_spread_In.
    assert (Hx : In "extractedAt" (obj_keys (obj_spread aux
              [("url", JString t); ("title", title md);
               ("description", description md); ("image", image md);
               ("logo", logo md); ("author", author md); ("date", date md);
               ("publisher", publisher md)]))).
    { destruct (in_dec string_dec "extractedAt" (obj_keys (obj_spread aux
              [("url", JString t); ("title", title md);
               ("description", description md); ("image", image md);
               ("logo", logo md); ("author", author md); ("date", date md);
               ("publisher", publisher md)]))) as [|Hn]; auto.
      apply obj_get_None_keys in Hn. congruence. }
    apply obj_keys_spread_In in Hx.
    unfold literal_keys. simpl in *. intuition (subst; auto).
  - rewrite in_app_iff, obj_keys_spread_In.
    unfold literal_keys. simpl. intuition.
Qed.

(** X15.  The reading of the clock enters the result under [extractedAt] and
    nowhere else: two results built from the same final URL, the same fields
    of the scraper and the same collected tags at two readings of the clock
    have the same keys in the same order, and the same value under every key
    other than [extractedAt], also when the document has a meta tag of that
    name. *)
Theorem clock_only_in_extractedAt (t : string) (md : Metadata) (aux : obj)
  (now1 now2 : string) :
  obj_keys (result t md aux now1) = obj_keys (result t md aux now2) /\
  forall k, k <> "extractedAt" ->
    obj_get k (result t md aux now1) = obj_get k (result t md aux now2).
Proof.
  unfold result. split.
  - rewrite !obj_keys_set. now destruct (obj_get "extractedAt" _).
  - intros k Hk. rewrite !obj_get_set_ne by congruence. reflexivity.
Qed.

End RouteProperties.

(** * Properties of the page *)

(** ** The label of an additional key *)

Lemma is_word_toUpperCase (c : ascii) : is_word (toUpperCase c) = is_word c.
Proof. destruct c as [[] [] [] [] [] [] [] []]; reflexivity. Qed.

Lemma spaced_char_word (c : ascii) :
  is_word (if Ascii.eqb c ":" || Ascii.eqb c "-" then " "%char else c) =
  is_word c.
Proof. destruct c as [[] [] [] [] [] [] [] []]; reflexivity. Qed.

Lemma spaced_char_capital (c : ascii) (b : bool) :
  (if Ascii.eqb (if is_word c && b then toUpperCase c else c) ":" ||
      Ascii.eqb (if is_word c && b then toUpperCase c else c) "-"
   then " "%char else if is_word c && b then toUpperCase c else c) =
  (if is_word (if Ascii.eqb c ":" || Ascii.eqb c "-" then " "%char else c) && b
   then toUpperCase (if Ascii.eqb c ":" || Ascii.eqb c "-" then " "%char else c)
   else if Ascii.eqb c ":" || Ascii.eqb c "-" then " "%char else c).
Proof. destruct b; destruct c as [[] [] [] [] [] [] [] []]; reflexivity. Qed.

Lemma capital_char_twice (c : ascii) (b : bool) :
  (if is_word (if is_word c && b then toUpperCase c else c) && b
   then toUpperCase (if is_word c && b then toUpperCase c else c)
   else if is_word c && b then toUpperCase c else c) =
  (if is_word c && b then toUpperCase c else c) /\
  is_word (if is_word c && b then toUpperCase c else c) = is_word c.
Proof. destruct b; destruct c as [[] [] [] [] [] [] [] []]; split; reflexivity. Qed.

Lemma spaced_char_clean (c : ascii) :
  (if Ascii.eqb c ":" || Ascii.eqb c "-" then " "%char else c) <> ":"%char /\
  (if Ascii.eqb c ":" || Ascii.eqb c "-" then " "%char else c) <> "-"%char.
Proof.
  destruct (Ascii.eqb c ":") eqn:E1; [split; discriminate|].
  destruct (Ascii.eqb c "-") eqn:E2; [split; discriminate|].
  apply Ascii.eqb_neq in E1, E2. simpl. auto.
Qed.

Lemma capital_char_clean (c : ascii) (b : bool) :
  c <> ":"%char /\ c <> "-"%char ->
  (if is_word c && b then toUpperCase c else c) <> ":"%char /\
  (if is_word c && b then toUpperCase c else c) <> "-"%char.
Proof.
  destruct b; destruct c as [[] [] [] [] [] [] [] []]; simpl; intros [H1 H2];
    split; try discriminate; assumption.
Qed.

Lemma spaced_capitalised (b : bool) (s : string) :
  spaced (capitalised b s) = capitalised b (spaced s).
Proof.
  revert b. induction s as [|c s IH]; intros b; simpl; auto.
  rewrite IH, (spaced_char_capital c (negb b)), !spaced_char_word.
  reflexivity.
Qed.

Lemma spaced_twice (s : string) : spaced (spaced s) = spaced s.
Proof.
  induction s as [|c s IH]; simpl; auto.
  rewrite IH. f_equal.
  destruct (Ascii.eqb c ":") eqn:E1; [reflexivity|].
  destruct (Ascii.eqb c "-") eqn:E2; [reflexivity|].
  simpl. now rewrite E1, E2.
Qed.

Lemma capitalised_twice (b : bool) (s : string) :
  capitalised b (capitalised b s) = capitalised b s.
Proof.
  revert b. induction s as [|c s IH]; intros b; simpl; auto.
  destruct (capital_char_twice c (negb b)) as [H1 H2].
  rewrite H1, H2, IH. reflexivity.
Qed.

(** X9.  Formatting a label a second time changes nothing: a label is a fixed
    point of the two replacements. *)
Theorem label_of_idempotent (key : string) :
  label_of (label_of key) = label_of key.
Proof.
  unfold label_of.
  now rewrite spaced_capitalised, spaced_twice, capitalised_twice.
Qed.

Lemma spaced_clean (s : string) (c : ascii) :
  In c (list_ascii_of_string (spaced s)) -> c <> ":"%char /\ c <> "-"%char.
Proof.
  induction s as [|a s IH]; simpl; [tauto|].
  intros [<- | H]; auto. apply spaced_char_clean.
Qed.

Lemma capitalised_clean (b : bool) (s : string) :
  (forall c, In c (list_ascii_of_string s) ->
             c <> ":"%char /\ c <> "-"%char) ->
  forall c, In c (list_ascii_of_string (capitalised b s)) ->
            c <> ":"%char /\ c <> "-"%char.
Proof.
  revert b. induction s as [|a s IH]; intros b Hs c; simpl; [tauto|].
  intros [<- | H].
  - apply capital_char_clean. apply Hs. simpl. auto.
  - apply (IH (is_word a)); auto. intros c' Hc'. apply Hs. simpl. auto.
Qed.

Lemma spaced_length (s : string) : String.length (spaced s) = String.length s.
Proof. induction s as [|c s IH]; simpl; auto. Qed.

Lemma capitalised_length (b : bool) (s : string) :
  String.length (capitalised b s) = String.length s.
Proof. revert b. induction s as [|c s IH]; intros b; simpl; auto. Qed.

(** X10.  A label is as long as its key and holds neither a colon nor a
    hyphen. *)
Theorem label_of_shape (key : string) :
  String.length (label_of key) = String.length key /\
  forall c, In c (list_ascii_of_string (label_of key)) ->
            c <> ":"%char /\ c <> "-"%char.
Proof.
  unfold label_of. split.
  - now rewrite capitalised_length, spaced_length.
  - apply capitalised_clean. apply spaced_clean.
Qed.

(** ** The list of items *)

Lemma renderMetadataItem_key (f : list string) (label : string)
  (v : option json) (key : string) :
  option_map item_key (renderMetadataItem f label v key) =
  if json_truthy v then Some key else None.
Proof.
  destruct v as [[|s|l]|]; simpl; auto.
  now destruct (String.eqb s "").
Qed.

Lemma shown_app (a b : list (option item)) :
  shown (a ++ b) = shown a ++ shown b.
Proof.
  induction a as [|[i|] a IH]; simpl; auto. now rewrite IH.
Qed.

Lemma shown_keys {A : Type} (f : list string) (lab : A -> string)
  (val : A -> option json) (key : A -> string) (l : list A) :
  map item_key
    (shown (map (fun x => renderMetadataItem f (lab x) (val x) (key x)) l)) =
  map key (filter (fun x => json_truthy (val x)) l).
Proof.
  induction l as [|x l IH]; simpl; auto.
  pose proof (renderMetadataItem_key f (lab x) (val x) (key x)) as H.
  destruct (renderMetadataItem f (lab x) (val x) (key x)) as [i|];
    destruct (json_truthy (val x)); simpl in *; try discriminate.
  - inversion H. now rewrite IH.
  - exact IH.
Qed.

Lemma json_get_In (k : string) (v : json) (o : list (string * json)) :
  NoDup (map fst o) -> (In (k, v) o <-> json_get k o = Some v).
Proof.
  induction o as [|[k' v'] o IH]; simpl; intros Hnd.
  - split; [tauto | discriminate].
  - inversion Hnd as [|? ? Hnotin Hnd']; subst.
    destruct (String.eqb k k') eqn:E.
    + apply String.eqb_eq in E. subst k'. split.
      * intros [H | H]; [now inversion H|].
        exfalso. apply Hnotin. change k with (fst (k, v)). now apply in_map.
      * intros H. inversion H. auto.
    + apply String.eqb_neq in E. rewrite <- (IH Hnd'). split.
      * intros [H | H]; [inversion H; congruence | auto].
      * auto.
Qed.

Lemma NoDup_map_filter {A B : Type} (g : A -> B) (p : A -> bool) (l : list A) :
  NoDup (map g l) -> NoDup (map g (filter p l)).
Proof.
  induction l as [|x l IH]; simpl; intros H; auto.
  inversion H as [|? ? Hnotin Hnd]; subst.
  destruct (p x); simpl; auto.
  constructor; auto. intros Hin. apply Hnotin.
  apply in_map_iff in Hin. destruct Hin as [y [Hy Hin]].
  apply filter_In in Hin. rewrite <- Hy. apply in_map. tauto.
Qed.

Lemma excluded_spec (k : string) :
  existsb (String.eqb k) excluded = true <->
  In k (map snd primary) \/ k = "extractedAt".
Proof.
  rewrite existsb_exists. split.
  - intros [x [Hx He]]. apply String.eqb_eq in He. subst x.
    simpl in *. intuition.
  - intros H. exists k. split; [|apply String.eqb_refl].
    simpl in *. intuition.
Qed.

(** X11.  Given a result whose keys are distinct, no two items that are shown
    have the same key, and the keys shown are exactly the keys of the result,
    [extractedAt] apart, whose value is neither [null] nor the empty string:
    every such entry is shown once, among the primary items or after
    them. *)
Theorem shown_items_keys (failedImages : list string)
  (result : list (string * json)) :
  NoDup (map fst result) ->
  NoDup (map item_key (shown (rendered failedImages result))) /\
  forall k,
    In k (map item_key (shown (rendered failedImages result))) <->
    (k <> "extractedAt" /\
     exists v, json_get k result = Some v /\
               v <> JsonNull /\ v <> JsonString "").
Proof.
  intros Hnd. unfold rendered.
  rewrite shown_app, map_app.
  rewrite (shown_keys failedImages fst
             (fun lk => json_get (snd lk) result) snd primary).
  rewrite (shown_keys failedImages (fun kv => label_of (fst kv))
             (fun kv => Some (snd kv)) fst).
  assert (Hk : forall k,
             json_truthy (json_get k result) = true <->
             exists v, json_get k result = Some v /\
                       v <> JsonNull /\ v <> JsonString "").
  { intros k. destruct (json_get k result) as [[|s|l]|]; simpl.
    - split; [discriminate|]. intros [v [Hv [Hn _]]]. congruence.
    - destruct (String.eqb s "") eqn:E; simpl.
      + apply String.eqb_eq in E. subst. split; [discriminate|].
        intros [v [Hv [_ He]]]. congruence.
      + apply String.eqb_neq in E. split; auto. intros _.
        exists (JsonString s). repeat split; congruence.
    - split; auto. intros _. exists (JsonArray l).
      repeat split; discriminate.
    - split; [discriminate|]. intros [v [Hv _]]. discriminate. }
  assert (H1 : forall k,
             In k (map snd (filter (fun lk => json_truthy
                                      (json_get (snd lk) result)) primary)) <->
             In k (map snd primary) /\
             json_truthy (json_get k result) = true).
  { intros k. rewrite in_map_iff. split.
    - intros [[l k'] [Hk' Hin]]. simpl in Hk'. subst k'.
      apply filter_In in Hin. destruct Hin as [Hin Ht]. split; auto.
      change k with (snd (l, k)). now apply in_map.
    - intros [Hin Ht]. apply in_map_iff in Hin.
      destruct Hin as [[l k'] [Hk' Hin]]. simpl in Hk'. subst k'.
      exists (l, k). split; auto. apply filter_In. auto. }
  assert (H2 : forall k,
             In k (map fst
                     (filter (fun kv => json_truthy (Some (snd kv)))
                        (filter (fun kv =>
                                   negb (existsb (String.eqb (fst kv)) excluded))
                                result))) <->
             existsb (String.eqb k) excluded = false /\
             json_truthy (json_get k result) = true).
  { intros k. rewrite in_map_iff. split.
    - intros [[k' v] [Hk' Hin]]. simpl in Hk'. subst k'.
      apply filter_In in Hin. destruct Hin as [Hin Ht].
      apply filter_In in Hin. destruct Hin as [Hin He]. cbn [fst snd] in *.
      apply negb_true_iff in He. split; auto.
      apply (json_get_In k v result Hnd) in Hin. now rewrite Hin.
    - intros [He Ht].
      destruct (json_get k result) as [v|] eqn:Ev; [|discriminate].
      apply (json_get_In k v result Hnd) in Ev.
      exists (k, v). split; auto.
      apply filter_In. split; auto. apply filter_In. split; auto.
      cbn [fst]. now rewrite He. }
  split.
  - apply NoDup_app.
    + apply NoDup_map_filter. simpl.
      repeat constructor; simpl; intuition discriminate.
    + do 2 apply NoDup_map_filter. exact Hnd.
    + intros k Hp Ha. apply H1 in Hp. apply H2 in Ha.
      destruct Hp as [Hp _]. destruct Ha as [Ha _].
      assert (existsb (String.eqb k) excluded = true)
        by (apply excluded_spec; auto).
      congruence.
  - intros k. rewrite in_app_iff, H1, H2, <- Hk. split.
    + intros [[Hp Ht] | [He Ht]]; split; auto.
      * intros ->. simpl in Hp. intuition discriminate.
      * intros ->. discriminate.
    + intros [Hx Ht].
      destruct (existsb (String.eqb k) excluded) eqn:E; [|auto].
      apply excluded_spec in E. destruct E as [E | E]; [auto | congruence].
Qed.

Lemma entry_hrefs_http (l : list string) (h : string) :
  In h (entry_hrefs (map (fun entry => if prefix "http" entry
                                       then (Some entry, entry)
                                       else (None, entry)) l)) ->
  prefix "http" h = true.
Proof.
  induction l as [|x l IH]; simpl; [tauto|].
  destruct (prefix "http" x) eqn:E; simpl; auto.
  intros [<- | H]; auto.
Qed.

Lemma renderMetadataItem_hrefs (f : list string) (label : string)
  (v : option json) (key : string) (i : item) (h : string) :
  renderMetadataItem f label v key = Some i ->
  In h (hrefs_of (item_body_of i)) ->
  prefix "http" h = true \/ prefix "//" h = true.
Proof.
  destruct v as [[|s|l]|]; simpl; try discriminate.
  - destruct (String.eqb s ""); [discriminate|].
    intros H. inversion H. subst i. simpl.
    destruct (_ || String.eqb key "favicon"); simpl; [tauto|].
    destruct (prefix "http" s || prefix "//" s) eqn:E; simpl; [|tauto].
    intros [<- | []]. now apply orb_true_iff.
  - intros H. inversion H. subst i. simpl.
    intros Hin. left. eapply entry_hrefs_http; eauto.
Qed.

Lemma shown_In (i : item) (l : list (option item)) :
  In i (shown l) <-> In (Some i) l.
Proof.
  induction l as [|[j|] l IH]; simpl.
  - tauto.
  - rewrite IH. split; intros [H | H]; auto; left; congruence.
  - rewrite IH. split; [auto|]. intros [H | H]; [discriminate | auto].
Qed.

(** X12.  The target of every anchor of the list starts with [http] or with [//],
    whatever the result holds: a value with another scheme is shown as text
    or as an image, not as a link. *)
Theorem shown_hrefs_start_with_http (failedImages : list string)
  (result : list (string * json)) (i : item) (h : string) :
  In i (shown (rendered failedImages result)) ->
  In h (hrefs_of (item_body_of i)) ->
  prefix "http" h = true \/ prefix "//" h = true.
Proof.
  rewrite shown_In. unfold rendered. rewrite in_app_iff, !in_map_iff.
  intros [[x [Hx _]] | [x [Hx _]]] Hh;
    eapply renderMetadataItem_hrefs; eauto.
Qed.

(** ** Submitting the form *)

Section Submit.

Context {B : Browser}.

(** X13.  After [handleSubmit] the input and the set of failed images are as
    before.  A request goes out exactly when the trimmed input is not empty,
    once, with the trimmed input as its [url]; when one went out, the loading
    flag is off at the end and a result is never left beside an error
    message.  A blank submit posts nothing and leaves the result that was
    there. *)
Theorem handleSubmit_outcome (s : HomeState) :
  st_url (fst (handleSubmit s)) = st_url s /\
  st_failedImages (fst (handleSubmit s)) = st_failedImages s /\
  (trim (st_url s) = "" ->
     snd (handleSubmit s) = [] /\
     st_error (fst (handleSubmit s)) = "Please enter a URL" /\
     st_result (fst (handleSubmit s)) = st_result s /\
     st_loading (fst (handleSubmit s)) = st_loading s) /\
  (trim (st_url s) <> "" ->
     snd (handleSubmit s) = [trim (st_url s)] /\
     st_loading (fst (handleSubmit s)) = false /\
     (st_result (fst (handleSubmit s)) = None \/
      st_error (fst (handleSubmit s)) = "")).
Proof.
  unfold handleSubmit.
  destruct (String.eqb (trim (st_url s)) "") eqn:E.
  - apply String.eqb_eq in E. simpl. repeat split; auto; congruence.
  - apply String.eqb_neq in E.
    destruct (api (trim (st_url s))) as [m | st data].
    + simpl. repeat split; auto; congruence.
    + destruct ((200 <=? st) && (st <=? 299))%nat; simpl;
        repeat split; auto; congruence.
Qed.

End Submit.

Lemma POST_error_message (P : Platform) (u now : string) (message : string) :
  u <> "" ->
  res_body (fst (POST (JsonBody (Some u)) now)) =
    [("error", JsonString message)] ->
  res_status (fst (POST (JsonBody (Some u)) now)) <> 200 ->
  message <> "URL is required".
Proof.
  intros Hu. unfold POST.
  assert (Ht : truthy (Some u) = true).
  { simpl. destruct (String.eqb u "") eqn:E; auto.
    apply String.eqb_eq in E. congruence. }
  rewrite Ht. cbn [negb].
  destruct (isValidUrl u); cbn [negb];
    [|simpl; intros H _; inversion H; discriminate].
  destruct (fetch u) as [response|];
    [|simpl; intros H _; inversion H; discriminate].
  destruct (ok response); cbn [negb].
  - destruct (extraction _ _ now);
      [simpl; congruence | simpl; intros H _; inversion H; discriminate].
  - simpl. intros H _. inversion H. discriminate.
Qed.

(** X14.  The page in front of the route.  For an input that is not blank, either
    the route answers 200 and the page holds the body of the answer as its
    result, with no error message; or the route answers with an error and
    the page holds no result and shows the message of the route as it is.
    That message is never "URL is required": the page does not post an empty
    [url]. *)
Theorem page_shows_route_answer (P : Platform) (tr : string -> string)
  (now : string) (s : HomeState) :
  tr (st_url s) <> "" ->
  let page := fst (handleSubmit (B := {| trim := tr; api := served now |}) s) in
  let resp := fst (POST (JsonBody (Some (tr (st_url s)))) now) in
  (res_status resp = 200 /\
   st_result page = Some (res_body resp) /\ st_error page = "") \/
  (res_status resp <> 200 /\
   st_result page = None /\
   res_body resp = [("error", JsonString (st_error page))] /\
   st_error page <> "URL is required").
Proof.
  intros Hu. cbv zeta. unfold handleSubmit. cbn [trim api].
  destruct (String.eqb (tr (st_url s)) "") eqn:E;
    [apply String.eqb_eq in E; congruence|].
  pose proof (POST_error_message P (tr (st_url s)) now) as Hmsg.
  pose proof (route_error_shape (fst (POST (JsonBody (Some (tr (st_url s)))) now))
                (or_intror (ex_intro _ _ (ex_intro _ now eq_refl)))) as Hshape.
  revert Hmsg Hshape. unfold served.
  destruct (POST (JsonBody (Some (tr (st_url s)))) now) as [resp log].
  cbn [fst]. intros Hmsg [H200 | [Hst [message [Hne Hbody]]]].
  - rewrite H200. simpl. left. auto.
  - assert (Hok : ((200 <=? res_status resp) && (res_status resp <=? 299))%nat
                  = false).
    { destruct Hst as [-> | [-> | ->]]; reflexivity. }
    assert (H200 : res_status resp <> 200).
    { destruct Hst as [-> | [-> | ->]]; discriminate. }
    rewrite Hok. cbn [fst st_result st_error]. right.
    assert (Hm : error_message (res_body resp) = message).
    { rewrite Hbody. unfold error_message. simpl.
      destruct (String.eqb message "") eqn:Em; auto.
      apply String.eqb_eq in Em. congruence. }
    rewrite Hm.
    split; [exact H200|]. split; [reflexivity|]. split; [exact Hbody|].
    exact (Hmsg message Hu Hbody H200).
Qed.

(** * Examples for the further properties *)

(** The answer to a request for an address that is answered with 404. *)
Lemma route_error_shape_witness :
  (exists request now,
     fst (POST (P := Ref.platform)
            (JsonBody (Some "https://example.com/missing")) "T") =
     fst (POST (P := Ref.platform) request now)) /\
  (res_status (fst (POST (P := Ref.platform)
                      (JsonBody (Some "https://example.com/missing")) "T"))
   = 200 \/
   ((res_status (fst (POST (P := Ref.platform)
                        (JsonBody (Some "https://example.com/missing")) "T"))
     = 400 \/
     res_status (fst (POST (P := Ref.platform)
                        (JsonBody (Some "https://example.com/missing")) "T"))
     = 405 \/
     res_status (fst (POST (P := Ref.platform)
                        (JsonBody (Some "https://example.com/missing")) "T"))
     = 500) /\
    exists message,
      message <> "" /\
      res_body (fst (POST (P := Ref.platform)
                       (JsonBody (Some "https://example.com/missing")) "T"))
      = [("error", JsonString message)])).
Proof.
  split; [eexists; eexists; reflexivity|].
  apply (route_error_shape (P := Ref.platform)).
  right. eexists. eexists. reflexivity.
Defined.


(** A page whose icon and feed are given with full addresses. *)
Lemma http_candidates_kept_witness :
  (forall h,
     In h (candidates
             [Ref.link "rel" "icon" "https://cdn.example.org/icon.png";
              Ref.link "type" "application/rss+xml"
                "http://example.com/rss.xml"]) ->
     prefix "http" h = true) /\
  exists aux,
    additionalMeta (P := Ref.platform)
      [Ref.link "rel" "icon" "https://cdn.example.org/icon.png";
       Ref.link "type" "application/rss+xml" "http://example.com/rss.xml"]
      "https://example.com/page" = Some aux /\
    (forall h,
       favicon_by_priority
         [Ref.link "rel" "icon" "https://cdn.example.org/icon.png";
          Ref.link "type" "application/rss+xml" "http://example.com/rss.xml"]
       = Some h ->
       obj_get "favicon" aux = Some (JString h)) /\
    (feed_hrefs
       [Ref.link "rel" "icon" "https://cdn.example.org/icon.png";
        Ref.link "type" "application/rss+xml" "http://example.com/rss.xml"]
     <> [] ->
     obj_get "feeds" aux =
     Some (JStrings
             (feed_hrefs
                [Ref.link "rel" "icon" "https://cdn.example.org/icon.png";
                 Ref.link "type" "application/rss+xml"
                   "http://example.com/rss.xml"]))).
Proof.
  assert (H : forall h,
            In h (candidates
                    [Ref.link "rel" "icon" "https://cdn.example.org/icon.png";
                     Ref.link "type" "application/rss+xml"
                       "http://example.com/rss.xml"]) ->
            prefix "http" h = true).
  { intros h [<- | [<- | []]]; reflexivity. }
  split; [exact H|].
  exact (http_candidates_kept (P := Ref.platform) _ "https://example.com/page" H).
Defined.

(** The key [og:type] of a page with one Open Graph tag. *)
Lemma collected_key_provenance_witness :
  additionalMeta (P := Ref.platform) [Ref.meta_property "og:type" "website"]
    "https://example.com/page" = Some [("og:type", JString "website")] /\
  obj_get "og:type" [("og:type", JString "website")] =
    Some (JString "website") /\
  (In "og:type" link_keys \/
   ("og:type" <> "" /\
    exists e c,
      In e [Ref.meta_property "og:type" "website"] /\ tag e = "meta" /\
      (attr "name" e = Some "og:type" \/ attr "property" e = Some "og:type") /\
      attr "content" e = Some c /\ c <> "" /\ JString "website" = JString c)).
Proof.
  split; [reflexivity|]. split; [reflexivity|].
  apply (collected_key_provenance (P := Ref.platform)
           [Ref.meta_property "og:type" "website"] "https://example.com/page"
           "og:type" [("og:type", JString "website")]); reflexivity.
Defined.

(** A canonical link with a relative [href] stays as it is written. *)
Lemma canonical_is_raw_href_witness :
  additionalMeta (P := Ref.platform) [Ref.link "rel" "canonical" "/post/1"]
    "https://example.com/page" = Some [("canonical", JString "/post/1")] /\
  obj_get "canonical"
    (result "https://example.com/page" Ref.nothing_found
       [("canonical", JString "/post/1")] "T")
  = Some (JString "/post/1").
Proof.
  split; [reflexivity|].
  apply (canonical_is_raw_href (P := Ref.platform)
           [Ref.link "rel" "canonical" "/post/1"] "https://example.com/page"
           Ref.nothing_found [("canonical", JString "/post/1")] "T").
  reflexivity.
Defined.

(** The [lang] of the [html] element wins over the content-language tag and
    over a meta tag named [language]. *)
Lemma language_precedence_witness :
  additionalMeta (P := Ref.platform)
    [Element "html" [("lang", "en")];
     Element "meta" [("http-equiv", "Content-Language"); ("content", "fr")];
     Ref.meta_name "language" "de"]
    "https://example.com/page" = Some [("language", JString "en")] /\
  obj_get "language"
    (result "https://example.com/page" Ref.nothing_found
       [("language", JString "en")] "T")
  = Some (JString "en").
Proof.
  split; [reflexivity|].
  apply (language_precedence (P := Ref.platform)
           [Element "html" [("lang", "en")];
            Element "meta" [("http-equiv", "Content-Language");
                            ("content", "fr")];
            Ref.meta_name "language" "de"]
           "https://example.com/page" Ref.nothing_found
           [("language", JString "en")] "T").
  reflexivity.
Defined.

(** The items of a result with a [null] title and an Open Graph tag. *)
Lemma shown_items_keys_witness :
  NoDup (map fst [("url", JsonString "https://example.com/");
                  ("title", JsonNull);
                  ("og:type", JsonString "website");
                  ("extractedAt", JsonString "T")]) /\
  map item_key
    (shown (rendered [] [("url", JsonString "https://example.com/");
                         ("title", JsonNull);
                         ("og:type", JsonString "website");
                         ("extractedAt", JsonString "T")]))
  = ["url"; "og:type"] /\
  (NoDup (map item_key
            (shown (rendered [] [("url", JsonString "https://example.com/");
                                 ("title", JsonNull);
                                 ("og:type", JsonString "website");
                                 ("extractedAt", JsonString "T")]))) /\
   forall k,
     In k (map item_key
             (shown (rendered [] [("url", JsonString "https://example.com/");
                                  ("title", JsonNull);
                                  ("og:type", JsonString "website");
                                  ("extractedAt", JsonString "T")]))) <->
     (k <> "extractedAt" /\
      exists v,
        json_get k [("url", JsonString "https://example.com/");
                    ("title", JsonNull);
                    ("og:type", JsonString "website");
                    ("extractedAt", JsonString "T")] = Some v /\
        v <> JsonNull /\ v <> JsonString "")).
Proof.
  assert (H : NoDup (map fst [("url", JsonString "https://example.com/");
                              ("title", JsonNull);
                              ("og:type", JsonString "website");
                              ("extractedAt", JsonString "T")])).
  { simpl. repeat constructor; simpl; intuition discriminate. }
  split; [exact H|]. split; [reflexivity|].
  exact (shown_items_keys [] _ H).
Defined.

(** The anchors of a result with a feed list: the entry without [http] is
    text. *)
Lemma shown_hrefs_start_with_http_witness :
  In {| item_key := "feeds"; item_label := "RSS/Atom Feeds";
        item_body_of := ListBody [(Some "https://example.com/a.xml",
                                   "https://example.com/a.xml");
                                  (None, "javascript:void(0)")] |}
     (shown (rendered [] [("feeds", JsonArray ["https://example.com/a.xml";
                                               "javascript:void(0)"])])) /\
  In "https://example.com/a.xml"
     (hrefs_of (ListBody [(Some "https://example.com/a.xml",
                           "https://example.com/a.xml");
                          (None, "javascript:void(0)")])) /\
  (prefix "http" "https://example.com/a.xml" = true \/
   prefix "//" "https://example.com/a.xml" = true).
Proof.
  assert (H1 : In {| item_key := "feeds"; item_label := "RSS/Atom Feeds";
                     item_body_of :=
                       ListBody [(Some "https://example.com/a.xml",
                                  "https://example.com/a.xml");
                                 (None, "javascript:void(0)")] |}
                  (shown (rendered []
                            [("feeds", JsonArray ["https://example.com/a.xml";
                                                  "javascript:void(0)"])]))).
  { left. reflexivity. }
  assert (H2 : In "https://example.com/a.xml"
                  (hrefs_of (ListBody [(Some "https://example.com/a.xml",
                                        "https://example.com/a.xml");
                                       (None, "javascript:void(0)")]))).
  { left. reflexivity. }
  split; [exact H1|]. split; [exact H2|].
  exact (shown_hrefs_start_with_http [] _ _ _ H1 H2).
Defined.

(** The page in front of the reference route, with an input that has spaces
    around an address answered with 404. *)
Lemma page_shows_route_answer_witness :
  RefBrowser.trim_ascii
    (st_url (RefBrowser.initial "  https://example.com/missing ")) <> "" /\
  st_error
    (fst (handleSubmit
            (B := {| trim := RefBrowser.trim_ascii;
                     api := served (P := Ref.platform) "T" |})
            (RefBrowser.initial "  https://example.com/missing ")))
  = "Failed to fetch webpage: 404 Not Found" /\
  ((res_status
      (fst (POST (P := Ref.platform)
              (JsonBody (Some (RefBrowser.trim_ascii
                 (st_url (RefBrowser.initial
                            "  https://example.com/missing ")))))
              "T")) = 200 /\
    st_result
      (fst (handleSubmit
              (B := {| trim := RefBrowser.trim_ascii;
                       api := served (P := Ref.platform) "T" |})
              (RefBrowser.initial "  https://example.com/missing ")))
    = Some (res_body
              (fst (POST (P := Ref.platform)
                      (JsonBody (Some (RefBrowser.trim_ascii
                         (st_url (RefBrowser.initial
                                    "  https://example.com/missing ")))))
                      "T"))) /\
    st_error
      (fst (handleSubmit
              (B := {| trim := RefBrowser.trim_ascii;
                       api := served (P := Ref.platform) "T" |})
              (RefBrowser.initial "  https://example.com/missing "))) = "") \/
   (res_status
      (fst (POST (P := Ref.platform)
              (JsonBody (Some (RefBrowser.trim_ascii
                 (st_url (RefBrowser.initial
                            "  https://example.com/missing ")))))
              "T")) <> 200 /\
    st_result
      (fst (handleSubmit
              (B := {| trim := RefBrowser.trim_ascii;
                       api := served (P := Ref.platform) "T" |})
              (RefBrowser.initial "  https://example.com/missing "))) = None /\
    res_body
      (fst (POST (P := Ref.platform)
              (JsonBody (Some (RefBrowser.trim_ascii
                 (st_url (RefBrowser.initial
                            "  https://example.com/missing ")))))
              "T"))
    = [("error",
        JsonString
          (st_error
             (fst (handleSubmit
                     (B := {| trim := RefBrowser.trim_ascii;
                              api := served (P := Ref.platform) "T" |})
                     (RefBrowser.initial
                        "  https://example.com/missing ")))))] /\
    st_error
      (fst (handleSubmit
              (B := {| trim := RefBrowser.trim_ascii;
                       api := served (P := Ref.platform) "T" |})
              (RefBrowser.initial "  https://example.com/missing ")))
    <> "URL is required")).
Proof.
  split; [discriminate|]. split; [reflexivity|].
  apply (page_shows_route_answer Ref.platform RefBrowser.trim_ascii "T"
           (RefBrowser.initial "  https://example.com/missing ")).
  discriminate.
Defined.

(** ** Attribute values in another case, and the key [__proto__] *)

(** The selectors on [rel], [type] and [http-equiv] take a value in any
    case: the first of two icon links is the one written [ICON], so the
    second, which cannot be resolved, is not looked at. *)
Example selectors_ignore_case :
  additionalMeta (P := Ref.platform)
    [Ref.link "rel" "ICON" "/ok.ico"; Ref.link "rel" "icon" "//"]
    "https://example.com/page"
  = Some [("favicon", JString "https://example.com/ok.ico")] /\
  additionalMeta (P := Ref.platform)
    [Ref.link "type" "Application/RSS+XML" "/feed.xml";
     Ref.link "rel" "Canonical" "/post";
     Element "meta" [("http-equiv", "Content-Language"); ("content", "fr")]]
    "https://example.com/page"
  = Some [("canonical", JString "/post"); ("language", JString "fr");
          ("feeds", JStrings ["https://example.com/feed.xml"])] /\
  candidates [Ref.link "type" "Application/RSS+XML" "//"] = ["//"] /\
  additionalMeta (P := Ref.platform)
    [Ref.link "type" "Application/RSS+XML" "//"] "https://example.com/page"
  = None.
Proof. repeat split; reflexivity. Qed.

(** A meta tag named [__proto__] leaves no key; one named [constructor]
    does. *)
Example proto_key_not_recorded :
  additionalMeta (P := Ref.platform)
    [Ref.meta_name "__proto__" "x"; Ref.meta_name "constructor" "y"]
    "https://example.com/page"
  = Some [("constructor", JString "y")].
Proof. reflexivity. Qed.

(** References that are a query or a fragment only are resolved against the
    page, not against its directory. *)
Example query_and_fragment_references :
  option_map href
    (new_URL (Platform := Ref.platform) "?feed=rss2"
       (Some "https://example.com/blog/post?x=1#top"))
  = Some "https://example.com/blog/post?feed=rss2" /\
  option_map href
    (new_URL (Platform := Ref.platform) "#notes"
       (Some "https://example.com/blog/post?x=1#top"))
  = Some "https://example.com/blog/post?x=1#notes".
Proof. split; reflexivity. Qed.
